(** * Cafeteria-Menu: the menu-item entity and its persistence manager

    A shallow embedding of [src/database.py]: the [MenuItem] data class with
    its two predicates ([equals], [is_complete]) and the [DatabaseManager]
    operations over the [menu_items] and [categories] tables.

    - Python [int] is [Z]; [Optional[int]] is [option Z].
    - Python [float] is the kernel's binary64 [float] (IEEE 754, round to
      nearest even), which is what CPython's float is.
    - Python [bytes] is [list Byte.byte]; [Optional[bytes]] is an [option].
    - Python objects that the code mutates in place live in a heap
      ([gmap loc MenuItem]); the manager's methods take a reference.
    - A method is a function from the world to an outcome (a returned
      value or a raised exception) and the world after it. *)

From Stdlib Require Import ZArith Floats QArith Qabs Qpower Ascii.
From Stdlib Require Import DecimalString DecimalN.
From stdpp Require Import base option decidable list sorting gmap strings.

Set Warnings "-inexact-float,-clear-no-such-hyp".
Local Open Scope Z_scope.

(** ** Python values *)

Definition bytes := list Byte.byte.

#[global] Instance byte_eq_dec : EqDecision Byte.byte := Byte.byte_eq_dec.

(** [bool(x)] for the types the code tests for truth. *)
Definition truthy_str (s : string) : bool :=
  match s with EmptyString => false | String _ _ => true end.

Definition truthy_int (n : option Z) : bool :=
  match n with None => false | Some z => negb (z =? 0) end.

Definition truthy_bytes (b : option bytes) : bool :=
  match b with None | Some [] => false | Some (_ :: _) => true end.

(** ** Floats: the two comparisons of the entity *)

Module Price.

(** [abs(float(p) - float(q))] *)
Definition abs_diff (p q : float) : float :=
  PrimFloat.abs (PrimFloat.sub p q).

(** [abs(float(p) - float(q)) < 0.01] *)
Definition close (p q : float) : bool :=
  PrimFloat.ltb (abs_diff p q) 0.01%float.

(** [p > 0] *)
Definition positive (p : float) : bool := PrimFloat.ltb 0%float p.

(** Neither a NaN nor an infinity. *)
Definition finite (p : float) : bool :=
  negb (PrimFloat.is_nan p || PrimFloat.is_infinity p).

(** The number a double stands for, when it stands for one: a zero, or a
    mantissa [m], an exponent [e] and a sign for [m * 2 ^ e] or its
    opposite. The infinities and the NaNs stand for none. *)
Definition exact (p : float) : option Q :=
  match Prim2SF p with
  | S754_zero _ => Some 0%Q
  | S754_finite s m e =>
      Some (inject_Z (if s then Z.neg m else Z.pos m) * 2 ^ e)%Q
  | S754_infinity _ | S754_nan => None
  end.

End Price.

(** ** Doubles as numbers

    What the facts on rounding are stated with. *)

Module Binary64.

(** Zeros and finite doubles, as opposed to infinities and NaNs. *)
Definition is_number (x : spec_float) : bool :=
  match x with
  | S754_zero _ | S754_finite _ _ _ => true
  | S754_infinity _ | S754_nan => false
  end.

(** A double counted in units of [2 ^ -1074], the spacing of the smallest
    doubles: every double that is a number is a whole number of them. *)
Definition units (x : spec_float) : Z :=
  match x with
  | S754_finite s m e => (if s then Z.neg m else Z.pos m) * 2 ^ (e + 1074)
  | _ => 0
  end.

(** The integer nearest to [x / 2 ^ n], the even one of two that are as
    near. *)
Definition nearest_even (x n : Z) : Z :=
  let q := x / 2 ^ n in
  let r := x mod 2 ^ n in
  let h := 2 ^ (n - 1) in
  if h <? r then q + 1
  else if (r =? h) && Z.odd q then q + 1
  else q.

End Binary64.

(** ** The MenuItem data class *)

Record MenuItem : Type := mkMenuItem {
  id : option Z;
  name : string;
  description : string;
  price : float;
  category_id : option Z;
  image : option bytes;
  image_name : option string;
  category_name : option string
}.

(** [MenuItem.equals]: the four basic attributes, then the images, then the
    image names when both images are there. *)
Definition equals (self other : MenuItem) : bool :=
  let basic_equality :=
    bool_decide (name self = name other) &&
    bool_decide (description self = description other) &&
    Price.close (price self) (price other) &&
    bool_decide (category_id self = category_id other) in
  if negb basic_equality then false
  else
    let images_match :=
      match image self, image other with
      | None, None => true
      | Some x, Some y => bool_decide (x = y)
      | _, _ => false
      end in
    if images_match && bool_decide (image self <> None)
    then bool_decide (image_name self = image_name other)
    else images_match.

(** [MenuItem.is_complete]: [bool(a and b and c and d and e)] is the
    conjunction of the operands' truth values. *)
Definition is_complete (self : MenuItem) : bool :=
  truthy_str (name self) &&
  truthy_str (description self) &&
  Price.positive (price self) &&
  truthy_int (category_id self) &&
  truthy_bytes (image self).

(** ** The world: the Python heap, the connection and the two tables *)

(** A reference to a [MenuItem] object. *)
Definition loc := positive.

(** One row of [menu_items]; the [id] column is the key of the table. *)
Record Row : Type := mkRow {
  row_name : string;
  row_description : string;
  row_price : float;
  row_category_id : Z;
  row_image : option bytes;
  row_image_name : option string
}.

(** What reaches the store, in the order it happens. *)
Inductive event : Type :=
  | EvConnect | EvSelect | EvInsert | EvUpdate | EvDelete
  | EvCommit | EvRollback.

Definition is_write (e : event) : bool :=
  match e with
  | EvInsert | EvUpdate | EvDelete => true
  | _ => false
  end.

Record World : Type := mkWorld {
  (** the MenuItem objects the caller holds *)
  heap : gmap loc MenuItem;
  (** [self.connection]: [None], or a handle and what [is_connected()] says *)
  connection : option bool;
  (** whether the server accepts a new connection *)
  reachable : bool;
  (** [self.config]: the client flag FOUND_ROWS. Without it (the
      connector's default) the [rowcount] of an UPDATE counts the rows
      changed, with it the rows matched. *)
  found_rows : bool;
  menu_items : gmap Z Row;
  categories : gmap Z string;
  (** the next value of the [id] column *)
  auto_increment : Z;
  trace : list event
}.

Definition with_heap (h : gmap loc MenuItem) (w : World) : World :=
  mkWorld h (connection w) (reachable w) (found_rows w) (menu_items w)
          (categories w) (auto_increment w) (trace w).

Definition with_connection (c : option bool) (w : World) : World :=
  mkWorld (heap w) c (reachable w) (found_rows w) (menu_items w)
          (categories w) (auto_increment w) (trace w).

Definition with_menu_items (t : gmap Z Row) (w : World) : World :=
  mkWorld (heap w) (connection w) (reachable w) (found_rows w) t
          (categories w) (auto_increment w) (trace w).

Definition with_auto_increment (n : Z) (w : World) : World :=
  mkWorld (heap w) (connection w) (reachable w) (found_rows w) (menu_items w)
          (categories w) n (trace w).

Definition log (e : event) (w : World) : World :=
  mkWorld (heap w) (connection w) (reachable w) (found_rows w) (menu_items w)
          (categories w) (auto_increment w) (trace w ++ [e]).

(** ** Methods: a state monad in which a raised exception keeps the state *)

(** The exceptions the methods raise; a message is the fixed part of the
    source's message (what an f-string appends is left out). *)
Inductive exn : Type :=
  | ValueError (msg : string)
  | Exception (msg : string)
  | AttributeError.

Inductive outcome (A : Type) : Type :=
  | Returns (a : A)
  | Raises (e : exn).
Arguments Returns {A} a.
Arguments Raises {A} e.

Definition M (A : Type) : Type := World -> outcome A * World.

#[global] Instance M_ret : MRet M := fun A a w => (Returns a, w).

#[global] Instance M_bind : MBind M := fun A B f m w =>
  match m w with
  | (Returns a, w') => f a w'
  | (Raises e, w') => (Raises e, w')
  end.

Definition raise {A : Type} (e : exn) : M A := fun w => (Raises e, w).

Definition emit (e : event) : M unit := fun w => (Returns tt, log e w).

(** Attribute access on a reference; a reference to no MenuItem raises. *)
Definition get_obj (l : loc) : M MenuItem := fun w =>
  match heap w !! l with
  | Some it => (Returns it, w)
  | None => (Raises AttributeError, w)
  end.

Definition set_obj (l : loc) (it : MenuItem) : M unit := fun w =>
  (Returns tt, with_heap (<[l := it]> (heap w)) w).

(** [item.image = current.image; item.image_name = current.image_name] *)
Definition copy_image (current it : MenuItem) : MenuItem :=
  mkMenuItem (id it) (name it) (description it) (price it) (category_id it)
             (image current) (image_name current) (category_name it).

(** ** Connection *)

Definition connect : M unit := fun w =>
  if reachable w
  then (Returns tt, log EvConnect (with_connection (Some true) w))
  else (Raises (Exception "Error connecting to database"), w).

Definition ensure_connection : M unit := fun w =>
  match connection w with
  | Some true => (Returns tt, w)
  | _ => connect w
  end.

(** ** The store's side of the statements *)

(** [MenuItem(id=row['id'], ..., price=float(row['price']), ...)] *)
Definition hydrate (i : Z) (r : Row) (cname : string) : MenuItem :=
  mkMenuItem (Some i) (row_name r) (row_description r) (row_price r)
             (Some (row_category_id r)) (row_image r) (row_image_name r)
             (Some cname).

(** [SELECT m.*, c.name FROM menu_items m JOIN categories c
     ON m.category_id = c.id WHERE m.id = %s] *)
Definition select_item (w : World) (i : Z) : option MenuItem :=
  r ← menu_items w !! i;
  cname ← categories w !! row_category_id r;
  Some (hydrate i r cname).

(** Modelled from the spec: the schema of [menu_items] is not under src/.
    The spec's data model makes [category_id] required, non-null and a
    reference to an existing category, checked when a row is written, and
    [price] an amount: a numeric column holds neither a NaN nor an infinity.
    A row that fails the check makes the statement fail with the
    connector's [Error]. *)
Definition row_of_item (w : World) (it : MenuItem) : option Row :=
  match category_id it with
  | Some c =>
      if bool_decide (is_Some (categories w !! c)) && Price.finite (price it)
      then Some (mkRow (name it) (description it) (price it) c
                       (image it) (image_name it))
      else None
  | None => None
  end.

(** Whether an UPDATE changed the stored row. *)
Definition row_eqb (r1 r2 : Row) : bool :=
  bool_decide (row_name r1 = row_name r2) &&
  bool_decide (row_description r1 = row_description r2) &&
  PrimFloat.Leibniz.eqb (row_price r1) (row_price r2) &&
  bool_decide (row_category_id r1 = row_category_id r2) &&
  bool_decide (row_image r1 = row_image r2) &&
  bool_decide (row_image_name r1 = row_image_name r2).

(** [cursor.execute(SELECT ...); cursor.fetchone()], hydrated. *)
Definition execute_select (i : Z) : M (option MenuItem) := fun w =>
  (Returns (select_item w i), log EvSelect w).

(** [cursor.execute(UPDATE ... WHERE id = %s)]: [Some rowcount], or [None]
    when the statement fails. *)
Definition execute_update (it : MenuItem) (i : Z) : M (option Z) := fun w =>
  match menu_items w !! i with
  | None => (Returns (Some 0), log EvUpdate w)
  | Some old =>
      match row_of_item w it with
      | Some new =>
          (Returns (Some (if found_rows w then 1
                          else if row_eqb old new then 0 else 1)),
           log EvUpdate (with_menu_items (<[i := new]> (menu_items w)) w))
      | None => (Returns None, log EvUpdate w)
      end
  end.

(** [cursor.execute(INSERT ...)]: [Some lastrowid], or [None] when the
    statement fails. *)
Definition execute_insert (it : MenuItem) : M (option Z) := fun w =>
  let n := auto_increment w in
  match row_of_item w it, menu_items w !! n with
  | Some new, None =>
      (Returns (Some n),
       log EvInsert (with_auto_increment (n + 1)
                       (with_menu_items (<[n := new]> (menu_items w)) w)))
  | _, _ => (Returns None, log EvInsert w)
  end.

(** [cursor.execute(DELETE FROM menu_items WHERE id = %s)]: the rowcount. *)
Definition execute_delete (i : Z) : M Z := fun w =>
  match menu_items w !! i with
  | Some _ =>
      (Returns 1, log EvDelete (with_menu_items (delete i (menu_items w)) w))
  | None => (Returns 0, log EvDelete w)
  end.

(** ** CRUD operations of [DatabaseManager] *)

Definition create_menu_item (item : loc) : M Z :=
  it ← get_obj item;
  if negb (is_complete it)
  then raise (ValueError "All fields are required to create a menu item")
  else
    _ ← ensure_connection;
    r ← execute_insert it;
    match r with
    | Some lastrowid => _ ← emit EvCommit; mret lastrowid
    | None =>
        _ ← emit EvRollback; raise (Exception "Error creating menu item")
    end.

Definition read_menu_item (item_id : Z) : M (option MenuItem) :=
  _ ← ensure_connection;
  execute_select item_id.

Definition has_changes (item_id : Z) (new_item : loc) : M bool :=
  _ ← ensure_connection;
  current_item ← read_menu_item item_id;
  match current_item with
  | None => mret true
  | Some cur =>
      it ← get_obj new_item;
      _ ← (if negb (truthy_bytes (image it))
           then set_obj new_item (copy_image cur it)
           else mret tt);
      it' ← get_obj new_item;
      mret (negb (equals cur it'))
  end.

Definition update_menu_item (item : loc) : M bool :=
  it ← get_obj item;
  match id it with
  | None | Some 0 => raise (ValueError "Item ID is required for update")
  | Some item_id =>
      _ ← ensure_connection;
      changed ← has_changes item_id item;
      if negb changed then mret false
      else
        it1 ← get_obj item;
        _ ← (if negb (truthy_bytes (image it1))
             then
               current_item ← read_menu_item item_id;
               match current_item with
               | Some cur => set_obj item (copy_image cur it1)
               | None => mret tt
               end
             else mret tt);
        it2 ← get_obj item;
        r ← execute_update it2 item_id;
        match r with
        | Some rowcount => _ ← emit EvCommit; mret (0 <? rowcount)
        | None =>
            _ ← emit EvRollback; raise (Exception "Error updating menu item")
        end
  end.

Definition delete_menu_item (item_id : option Z) : M bool :=
  match item_id with
  | None | Some 0 => raise (ValueError "Item ID is required for deletion")
  | Some i =>
      _ ← ensure_connection;
      rowcount ← execute_delete i;
      _ ← emit EvCommit;
      mret (0 <? rowcount)
  end.

(** ** The text functions of the search query

    [search_menu_items] hands three things to the SQL engine: [LIKE],
    [SOUNDEX] and [ORDER BY] on a text column. They are written out here on
    ASCII text under a case-insensitive collation (the engine's default,
    and the one the spec describes). *)

Module Sql.

Definition code (c : ascii) : N := N_of_ascii c.

Definition is_lower (c : ascii) : bool :=
  ((97 <=? code c) && (code c <=? 122))%N.

Definition is_upper (c : ascii) : bool :=
  ((65 <=? code c) && (code c <=? 90))%N.

Definition is_alpha (c : ascii) : bool := is_lower c || is_upper c.

Definition toupper (c : ascii) : ascii :=
  if is_lower c then ascii_of_N (code c - 32) else c.

(** The weight of a character: letters compare without their case. *)
Definition weight (c : ascii) : N := code (toupper c).

Definition same_char (c d : ascii) : bool := (weight c =? weight d)%N.

(** [ORDER BY] on text: lexicographic on the weights. *)
Fixpoint collate (s t : string) : comparison :=
  match s, t with
  | EmptyString, EmptyString => Eq
  | EmptyString, String _ _ => Lt
  | String _ _, EmptyString => Gt
  | String a s', String b t' =>
      match (weight a ?= weight b)%N with
      | Eq => collate s' t'
      | c => c
      end
  end.

Definition collate_le (s t : string) : Prop := collate s t <> Gt.

(** [s LIKE pat]: [%] stands for any run of characters, [_] for any one
    character, and a backslash that is not the last character of the
    pattern makes the next character literal. *)
Fixpoint like (pat : string) : string -> bool :=
  match pat with
  | EmptyString =>
      fun s => match s with EmptyString => true | String _ _ => false end
  | String c pat' =>
      let literal (x : ascii) (rest : string -> bool) : string -> bool :=
        fun s =>
          match s with
          | EmptyString => false
          | String d s' => same_char x d && rest s'
          end in
      if Ascii.eqb c "%" then
        fix many (s : string) : bool :=
          like pat' s ||
          match s with
          | EmptyString => false
          | String _ s' => many s'
          end
      else if Ascii.eqb c "_" then
        fun s =>
          match s with
          | EmptyString => false
          | String _ s' => like pat' s'
          end
      else if Ascii.eqb c "\" then
        match pat' with
        | String e pat'' => literal e (like pat'')
        | EmptyString => literal c (like pat')
        end
      else literal c (like pat')
  end.

(** The digit [SOUNDEX] gives a letter; ["0"] for the letters it drops. *)
Definition scode (c : ascii) : ascii :=
  match toupper c with
  | "B" | "F" | "P" | "V" => "1"
  | "C" | "G" | "J" | "K" | "Q" | "S" | "X" | "Z" => "2"
  | "D" | "T" => "3"
  | "L" => "4"
  | "M" | "N" => "5"
  | "R" => "6"
  | _ => "0"
  end%char.

(** The digits after the first letter: a letter is written when its digit
    is not ["0"] and differs from the last digit written. *)
Fixpoint soundex_tail (last_ch : ascii) (s : string) : string :=
  match s with
  | EmptyString => EmptyString
  | String c s' =>
      if is_alpha c then
        let ch := scode c in
        if negb (Ascii.eqb ch "0") && negb (Ascii.eqb ch last_ch)
        then String ch (soundex_tail ch s')
        else soundex_tail last_ch s'
      else soundex_tail last_ch s'
  end.

Definition pad4 (s : string) : string :=
  String.append s (String.string_of_list_ascii
                     (replicate (4 - String.length s)%nat "0"%char)).

(** [SOUNDEX(s)]: the first letter in upper case, then the digits, padded
    with zeros to four characters; empty when [s] has no letter. *)
Fixpoint soundex (s : string) : string :=
  match s with
  | EmptyString => EmptyString
  | String c s' =>
      if is_alpha c
      then pad4 (String (toupper c) (soundex_tail (scode c) s'))
      else soundex s'
  end.

End Sql.

(** ** Python's [int(str)] on ASCII text

    On a [str] of ASCII characters CPython's [int] skips the characters
    of [Py_ISSPACE] at both ends (tab, line feed, vertical tab, form feed,
    carriage return and the space; not the separators 28 to 31, which
    [str.strip] removes), takes one sign, and reads decimal digits with
    single underscores between them. Two things are left out, and
    [in_range] names the terms where neither comes in: outside ASCII
    [int] also reads the digits and the spaces of other scripts, and
    beyond [sys.get_int_max_str_digits()] digits (4300 unless the program
    changes it, which this one does not) it raises [ValueError] whatever
    the digits are. *)

Module Py.

Definition is_space (c : ascii) : bool :=
  let n := Sql.code c in
  (((9 <=? n) && (n <=? 13)) || (n =? 32))%N.

Definition is_digit (c : ascii) : bool :=
  let n := Sql.code c in ((48 <=? n) && (n <=? 57))%N.

Fixpoint lstrip (s : list ascii) : list ascii :=
  match s with
  | c :: s' => if is_space c then lstrip s' else s
  | [] => []
  end.

Definition strip (s : list ascii) : list ascii :=
  reverse (lstrip (reverse (lstrip s))).

(** Decimal digits, with single underscores between digits. *)
Fixpoint digits (acc : Z) (after_digit : bool) (s : list ascii) : option Z :=
  match s with
  | [] => if after_digit then Some acc else None
  | c :: s' =>
      if is_digit c
      then digits (10 * acc + (Z.of_N (Sql.code c) - 48)) true s'
      else if Ascii.eqb c "_" && after_digit then
        match s' with
        | [] => None
        | _ :: _ => digits acc false s'
        end
      else None
  end.

(** [int(s)]; [None] is [ValueError]. *)
Definition int (s : string) : option Z :=
  match strip (String.list_ascii_of_string s) with
  | ("-"%char) :: ds => Z.opp <$> digits 0 false ds
  | ("+"%char) :: ds => digits 0 false ds
  | ds => digits 0 false ds
  end.




End Py.

(** ** Search *)

#[global] Instance float_eq_dec : EqDecision float.
Proof.
  intros x y. destruct (PrimFloat.Leibniz.eqb x y) eqn:E.
  - left. apply FloatAxioms.Leibniz.eqb_spec. exact E.
  - right. intros H. apply FloatAxioms.Leibniz.eqb_spec in H. congruence.
Defined.

#[global] Instance MenuItem_eq_dec : EqDecision MenuItem.
Proof. solve_decision. Defined.

Module Search.

(** [f"%{search_term}%"] *)
Definition search_pattern (search_term : string) : string :=
  String "%" (String.append search_term "%").

(** The three disjuncts of the WHERE clause. *)
Definition id_condition (search_term : string) (it : MenuItem) : bool :=
  match Py.int search_term with
  | Some item_id => bool_decide (id it = Some item_id)
  | None => false
  end.

Definition name_like (search_term : string) (it : MenuItem) : bool :=
  Sql.like (search_pattern search_term) (name it).

Definition name_sounds (search_term : string) (it : MenuItem) : bool :=
  bool_decide (Sql.soundex (name it) = Sql.soundex search_term).

Definition matches (search_term : string) (it : MenuItem) : bool :=
  id_condition search_term it || name_like search_term it
  || name_sounds search_term it.

(** The CASE expression of the ORDER BY clause. *)
Definition rank (search_term : string) (it : MenuItem) : Z :=
  if name_like search_term it then 1
  else if name_sounds search_term it then 2
  else 3.

(** [ORDER BY CASE ... END, m.name] *)
Definition order (search_term : string) (a b : MenuItem) : Prop :=
  rank search_term a < rank search_term b \/
  (rank search_term a = rank search_term b /\
   Sql.collate_le (name a) (name b)).

#[global] Instance order_dec search_term a b :
  Decision (order search_term a b).
Proof. unfold order, Sql.collate_le. apply _. Defined.

(** [menu_items m JOIN categories c ON m.category_id = c.id] *)
Definition joined (w : World) : list MenuItem :=
  omap (fun ir : Z * Row =>
          cname ← categories w !! row_category_id ir.2;
          Some (hydrate ir.1 ir.2 cname))
       (map_to_list (menu_items w)).

(** The rows the query returns, in its order. *)
Definition select (search_term : string) (w : World) : list MenuItem :=
  merge_sort (order search_term)
    (remove_dups (filter (fun it => matches search_term it = true)
                         (joined w))).

End Search.

Definition execute_search (search_term : string) : M (list MenuItem) :=
  fun w => (Returns (Search.select search_term w), log EvSelect w).

Definition search_menu_items (search_term : string) : M (list MenuItem) :=
  _ ← ensure_connection;
  execute_search search_term.

(** ** Notions the statements use *)

(** The store can be talked to: the handle is connected, or the server
    accepts a new connection. *)
Definition online (w : World) : bool :=
  match connection w with
  | Some true => true
  | _ => reachable w
  end.

(** The world once [ensure_connection] has gone through. *)
Definition live (w : World) : World :=
  match connection w with
  | Some true => w
  | _ => log EvConnect (with_connection (Some true) w)
  end.

(** The item as it is compared and written: the stored image and image name
    are carried onto it when it has no image of its own. *)
Definition carry (current it : MenuItem) : MenuItem :=
  if truthy_bytes (image it) then it else copy_image current it.

(** The image columns of the row stored under an id. *)
Definition stored_image_pair (w : World) (i : Z)
  : option (option bytes * option string) :=
  (fun r => (row_image r, row_image_name r)) <$> menu_items w !! i.

(** Both tables, the id counter and the server are as they were. *)
Definition store_unchanged (w w' : World) : Prop :=
  menu_items w' = menu_items w /\ categories w' = categories w /\
  auto_increment w' = auto_increment w /\ found_rows w' = found_rows w /\
  reachable w' = reachable w.

(** What reached the store between [w] and [w'] wrote nothing. *)
Definition read_only (w w' : World) : Prop :=
  exists evs, trace w' = trace w ++ evs /\
              Forall (fun e => is_write e = false) evs.

(** The data model's invariant on the two tables: every stored item
    refers to an existing category. *)
Definition fk_integrity (w : World) : Prop :=
  forall i r, menu_items w !! i = Some r ->
              is_Some (categories w !! row_category_id r).

(** A method keeps a property of the world, however it ends. *)
Definition preserves {A : Type} (P : World -> Prop) (m : M A) : Prop :=
  forall w, P w -> P (m w).2.




(** The same item with [image = None]. *)
Definition without_image (it : MenuItem) : MenuItem :=
  mkMenuItem (id it) (name it) (description it) (price it) (category_id it)
             None (image_name it) (category_name it).

(** The same item with another price. *)
Definition priced (p : float) (it : MenuItem) : MenuItem :=
  mkMenuItem (id it) (name it) (description it) p (category_id it)
             (image it) (image_name it) (category_name it).

(** The world in which the caller holds [it] under the reference [l]. *)
Definition holding (l : loc) (it : MenuItem) (w : World) : World :=
  with_heap (<[l := it]> (heap w)) w.

(** ** A small cafeteria, for running the model *)

Module Cafe.

Definition png : bytes := [Byte.x89; Byte.x50; Byte.x4e; Byte.x47].

Definition tea_row : Row :=
  mkRow "Tea" "Hot tea" 2.5%float 1 (Some png) (Some "tea.png").

Definition drink (n : string) : Row :=
  mkRow n "Coffee" 3.5%float 1 (Some png) (Some "cup.png").

(** One stored item, one category, a connected handle. *)
Definition shop : World :=
  mkWorld ∅ (Some true) true false
          {[ 1 := tea_row ]} {[ 1 := "Drinks"%string ]} 2 [].

(** The three items of the spec's search example. *)
Definition bar : World :=
  mkWorld ∅ (Some true) true false
          (<[ 3 := drink "Mocha" ]>
             (<[ 2 := drink "Latte Macchiato" ]> {[ 1 := drink "Latte" ]}))
          {[ 1 := "Drinks"%string ]} 4 [].

(** The form's item for the stored tea: a new price and no image. *)
Definition tea_edit : MenuItem :=
  mkMenuItem (Some 1) "Tea" "Hot tea" 3%float (Some 1) None None
             (Some "Drinks"%string).

(** The stored tea as it is read back. *)
Definition tea : MenuItem := hydrate 1 tea_row "Drinks".

(** The tea before it is created: no id yet. *)
Definition tea_new : MenuItem :=
  mkMenuItem None "Tea" "Hot tea" 2.5%float (Some 1) (Some png)
             (Some "tea.png"%string) None.

(** An item with an image of no bytes. *)
Definition tea_empty : MenuItem :=
  mkMenuItem (Some 1) "Tea" "Hot tea" 2.5%float (Some 1) (Some []) None None.

Definition mocha : MenuItem := hydrate 3 (drink "Mocha") "Drinks".

Definition here : loc := 1%positive.

End Cafe.

(** ** The other queries, and closing the connection *)

(** [ORDER BY m.name] *)
Definition by_name (a b : MenuItem) : Prop :=
  Sql.collate_le (name a) (name b).

#[global] Instance by_name_dec a b : Decision (by_name a b).
Proof. unfold by_name, Sql.collate_le. apply _. Defined.

(** [SELECT m.*, c.name as category_name FROM menu_items m
     JOIN categories c ON m.category_id = c.id ORDER BY m.name],
    each row hydrated. *)
Definition execute_select_all : M (list MenuItem) := fun w =>
  (Returns (merge_sort by_name (Search.joined w)), log EvSelect w).

Definition get_all_menu_items : M (list MenuItem) :=
  _ ← ensure_connection;
  execute_select_all.

(** [ORDER BY name] on [categories] *)
Definition category_by_name (a b : Z * string) : Prop :=
  Sql.collate_le a.2 b.2.

#[global] Instance category_by_name_dec a b : Decision (category_by_name a b).
Proof. unfold category_by_name, Sql.collate_le. apply _. Defined.

(** [SELECT id, name FROM categories ORDER BY name; cursor.fetchall()] *)
Definition execute_select_categories : M (list (Z * string)) := fun w =>
  (Returns (merge_sort category_by_name (map_to_list (categories w))),
   log EvSelect w).

Definition get_categories : M (list (Z * string)) :=
  _ ← ensure_connection;
  execute_select_categories.

(** [DatabaseManager.close]: a connected handle is closed and stays as a
    handle that is not connected; no statement is sent. *)
Definition close : M unit := fun w =>
  match connection w with
  | Some true => (Returns tt, with_connection (Some false) w)
  | _ => (Returns tt, w)
  end.

(** Python's [str] of a non-negative [int]: its decimal digits. *)
Definition str_nat (n : N) : string :=
  DecimalString.NilZero.string_of_uint (N.to_uint n).

(** ** Notions the further statements use *)

(** The outcome of a method that could not reach the store: the
    connection error, and the world as it was. *)
Definition refused {A : Type} (w : World) : outcome A * World :=
  (Raises (Exception "Error connecting to database"), w).

(** Nothing but the handle and the trace moved, and no write was sent. *)
Definition only_read (w w' : World) : Prop :=
  store_unchanged w w' /\ read_only w w' /\ heap w' = heap w.

(** The characters of a decimal numeral. *)
Definition numeral_chars (d : Decimal.uint) : list ascii :=
  String.list_ascii_of_string (NilEmpty.string_of_uint d).

(** ** More of the cafeteria *)

Module Shelf.

(** An item whose id no row has. *)
Definition stray : MenuItem :=
  mkMenuItem (Some 7) "Tea" "Hot tea" 3%float (Some 1) None None None.

(** The shop with no handle and a server that does not answer. *)
Definition unplugged : World :=
  mkWorld ∅ None false false
          {[ 1 := Cafe.tea_row ]} {[ 1 := "Drinks"%string ]} 2 [].

End Shelf.

(** * Verification *)

(** ** Binary64 facts behind the price comparison *)

Section FloatFacts.

Lemma SF_cent : Prim2SF 0.01%float = S754_finite false 5764607523034235 (-59).
Proof. reflexivity. Qed.

Lemma SF_nine_mills :
  Prim2SF 0.009%float = S754_finite false 5188146770730811 (-59).
Proof. reflexivity. Qed.

(** Below or at a positive float is strictly below a larger one of the
    same exponent. *)
Lemma SFleb_ltb_below (x : spec_float) (m1 m2 : positive) (e : Z) :
  (m1 < m2)%positive ->
  SFleb x (S754_finite false m1 e) = true ->
  SFltb x (S754_finite false m2 e) = true.
Proof.
  intros Hm. unfold SFleb, SFltb, SFcompare.
  destruct x as [s|s| |s m ex]; try (destruct s); try done.
  destruct (ex ?= e); try done.
  change (Pos.compare_cont Eq m ?k) with (Pos.compare m k).
  destruct (Pos.compare_spec m m1) as [->|Hlt|Hgt]; try done.
  - intros _. apply Pos.compare_lt_iff in Hm. by rewrite Hm.
  - intros _. assert (H : (m < m2)%positive) by lia.
    apply Pos.compare_lt_iff in H. by rewrite H.
Qed.

Lemma SFleb_not_ltb (x : spec_float) (m0 : positive) (e : Z) :
  SFleb (S754_finite false m0 e) x = true ->
  SFltb x (S754_finite false m0 e) = false.
Proof.
  unfold SFleb, SFltb, SFcompare.
  destruct x as [s|s| |s m ex]; try (destruct s); try done.
  rewrite (Z.compare_antisym ex e).
  destruct (ex ?= e); try done. simpl.
  change (Pos.compare_cont Eq ?a ?k) with (Pos.compare a k).
  rewrite (Pos.compare_antisym m m0).
  by destruct (Pos.compare m m0).
Qed.

Lemma within_nine_mills_lt_cent (x : float) :
  PrimFloat.leb x 0.009%float = true -> PrimFloat.ltb x 0.01%float = true.
Proof.
  rewrite FloatAxioms.leb_spec, FloatAxioms.ltb_spec, SF_cent, SF_nine_mills.
  apply SFleb_ltb_below. reflexivity.
Qed.

Lemma cent_or_more_not_lt (x : float) :
  PrimFloat.leb 0.01%float x = true -> PrimFloat.ltb x 0.01%float = false.
Proof.
  rewrite FloatAxioms.leb_spec, FloatAxioms.ltb_spec, SF_cent.
  apply SFleb_not_ltb.
Qed.

Lemma finite_spec (p : float) :
  Price.finite p = true ->
  (exists s, Prim2SF p = S754_zero s) \/
  (exists s m e, Prim2SF p = S754_finite s m e).
Proof.
  unfold Price.finite, is_nan, is_infinity.
  rewrite !FloatAxioms.eqb_spec, FloatAxioms.abs_spec.
  destruct (Prim2SF p) as [s|s| |s m e]; eauto; try done.
  destruct s; done.
Qed.

(** A finite price is within a cent of itself: [p - p] is zero. *)
Lemma close_refl (p : float) :
  Price.finite p = true -> Price.close p p = true.
Proof.
  intros H. unfold Price.close, Price.abs_diff.
  rewrite FloatAxioms.ltb_spec, FloatAxioms.abs_spec,
    FloatAxioms.sub_spec, SF_cent.
  destruct (finite_spec p H) as [[s ->]|(s & m & e & ->)].
  - destruct s; reflexivity.
  - unfold SF64sub, SFsub. rewrite Z.sub_diag. reflexivity.
Qed.

End FloatFacts.

(** ** Rounding: the computed difference and the exact one

    [p - q] on doubles is the exact difference rounded to the nearest
    double, ties to the even mantissa. The lemmas follow the library's
    [binary_round] through its shifts. *)

Section Rounding.

Implicit Types (m : positive) (e k n : Z).

Lemma fexp64 x : fexp prec emax x = Z.max (x - 53) (-1074).
Proof. reflexivity. Qed.

Lemma digits2_pos_bounds m :
  2 ^ (Z.pos (digits2_pos m) - 1) <= Z.pos m < 2 ^ Z.pos (digits2_pos m).
Proof.
  induction m as [m IH|m IH|]; simpl digits2_pos; [| |done];
    rewrite Pos2Z.inj_succ;
    replace (Z.succ (Z.pos (digits2_pos m)) - 1)
      with (Z.succ (Z.pos (digits2_pos m) - 1)) by lia;
    rewrite !Z.pow_succ_r by lia; lia.
Qed.

Lemma digits2_pos_unique m k :
  2 ^ (k - 1) <= Z.pos m < 2 ^ k -> Z.pos (digits2_pos m) = k.
Proof.
  intros [Hlo Hhi]. pose proof (digits2_pos_bounds m) as [Dlo Dhi].
  set (d := Z.pos (digits2_pos m)) in *.
  destruct (Z.lt_trichotomy d k) as [H|[H|H]]; [|done|].
  - assert (2 ^ d <= 2 ^ (k - 1)) by (apply Z.pow_le_mono_r; lia). lia.
  - assert (0 <= k).
    { destruct (Z.le_gt_cases 0 k); [done|].
      rewrite (Z.pow_neg_r 2 k) in Hhi by done. lia. }
    assert (2 ^ k <= 2 ^ (d - 1)) by (apply Z.pow_le_mono_r; lia). lia.
Qed.

Lemma iter_pos_nat {A} (f : A -> A) (p : positive) (x : A) :
  SpecFloat.iter_pos f p x = Nat.iter (Pos.to_nat p) f x.
Proof.
  revert x. induction p as [p IH|p IH|]; intros x; simpl SpecFloat.iter_pos.
  - rewrite !IH, Pos2Nat.inj_xI.
    replace (S (2 * Pos.to_nat p))%nat
      with (Pos.to_nat p + (Pos.to_nat p + 1))%nat by lia.
    rewrite !Nat.iter_add. done.
  - rewrite !IH, Pos2Nat.inj_xO.
    replace (2 * Pos.to_nat p)%nat
      with (Pos.to_nat p + Pos.to_nat p)%nat by lia.
    by rewrite Nat.iter_add.
  - done.
Qed.

Lemma shr_1_nonneg x r s :
  0 <= x ->
  shr_1 {| shr_m := x; shr_r := r; shr_s := s |}
    = {| shr_m := x / 2; shr_r := Z.odd x; shr_s := r || s |}.
Proof.
  intros Hx. rewrite <- Z.div2_div.
  destruct x as [|[p|p|]|p]; try done.
Qed.

(** [k + 1] shifts to the right: the quotient, the bit that went last and
    whether a bit went before it. *)
Lemma shr_iter x (k : nat) :
  0 <= x ->
  Nat.iter (S k) shr_1 {| shr_m := x; shr_r := false; shr_s := false |}
    = {| shr_m := x / 2 ^ (Z.of_nat k + 1);
         shr_r := Z.odd (x / 2 ^ Z.of_nat k);
         shr_s := negb (x mod 2 ^ Z.of_nat k =? 0) |}.
Proof.
  intros Hx. induction k as [|k IH].
  - cbn [Nat.iter nat_rect]. rewrite shr_1_nonneg by done.
    change (2 ^ Z.of_nat 0) with 1. rewrite Z.div_1_r, Z.mod_1_r. done.
  - rewrite Nat.iter_succ, IH.
    assert (Hp : 0 < 2 ^ Z.of_nat k) by (apply Z.pow_pos_nonneg; lia).
    rewrite shr_1_nonneg
      by (apply Z.div_pos; [done|apply Z.pow_pos_nonneg; lia]).
    rewrite Nat2Z.inj_succ.
    replace (Z.succ (Z.of_nat k)) with (Z.of_nat k + 1) by lia.
    rewrite (Z.pow_add_r 2 (Z.of_nat k + 1) 1) by lia.
    change (2 ^ 1) with 2.
    rewrite Z.div_div by lia.
    f_equal.
    rewrite (Z.pow_add_r 2 (Z.of_nat k) 1) by lia. change (2 ^ 1) with 2.
    rewrite Z.rem_mul_r by lia.
    destruct (Z.odd (x / 2 ^ Z.of_nat k)) eqn:Ho.
    + rewrite Zmod_odd, Ho. simpl. apply eq_sym, negb_true_iff, Z.eqb_neq.
      pose proof (Z.mod_pos_bound x (2 ^ Z.of_nat k) Hp). lia.
    + rewrite Zmod_odd, Ho. simpl. f_equal. f_equal. lia.
Qed.

Lemma shr_round x e (p : positive) :
  0 <= x ->
  let '(mrs, e') :=
    shr {| shr_m := x; shr_r := false; shr_s := false |} e (Z.pos p) in
  round_nearest_even (shr_m mrs) (loc_of_shr_record mrs)
    = Binary64.nearest_even x (Z.pos p) /\
  e' = e + Z.pos p.
Proof.
  intros Hx. unfold shr. rewrite iter_pos_nat.
  destruct (Pos2Nat.is_succ p) as [k Hk]. rewrite Hk, shr_iter by done.
  assert (Hkp : Z.of_nat k + 1 = Z.pos p) by lia.
  rewrite Hkp. replace (Z.of_nat k) with (Z.pos p - 1) by lia.
  split; [|done]. unfold Binary64.nearest_even.
  set (h := 2 ^ (Z.pos p - 1)).
  assert (Hh : 0 < h) by (apply Z.pow_pos_nonneg; lia).
  assert (E2 : 2 ^ Z.pos p = h * 2).
  { unfold h. replace (Z.pos p) with (Z.pos p - 1 + 1) at 1 by lia.
    by rewrite Z.pow_add_r by lia. }
  rewrite E2, Z.rem_mul_r by lia. rewrite <- Z.div_div by lia.
  rewrite Zmod_odd.
  pose proof (Z.mod_pos_bound x h Hh) as Hr.
  destruct (Z.odd (x / h)) eqn:Ho; simpl.
  - destruct (Z.eqb_spec (x mod h) 0) as [E0|E0]; simpl.
    + rewrite E0. replace (0 + h * 1) with h by lia.
      rewrite Z.ltb_irrefl, Z.eqb_refl. simpl.
      rewrite <- Z.negb_odd. by destruct (Z.odd (x / h / 2)).
    + destruct (Z.ltb_spec h (x mod h + h * 1)); [done|lia].
  - replace (x mod h + h * 0) with (x mod h) by lia.
    destruct (Z.ltb_spec h (x mod h)); [lia|].
    destruct (Z.eqb_spec (x mod h) h); [lia|]. simpl.
    by destruct (x mod h =? 0).
Qed.

Lemma shl_align_le m e e' :
  e' <= e ->
  exists mz, shl_align m e e' = (mz, e') /\ Z.pos mz = Z.pos m * 2 ^ (e - e').
Proof.
  intros H. unfold shl_align. destruct (e' - e) as [|d|d] eqn:E; [|lia|].
  - exists m. assert (e' = e) by lia. subst. rewrite Z.sub_diag.
    split; [done|lia].
  - exists (Pos.iter xO m d). split; [done|].
    change (Pos.iter xO m d) with (shift_pos d m). rewrite shift_pos_correct.
    replace (e - e') with (Z.pos d) by lia. by rewrite Z.mul_comm.
Qed.

Lemma shl_align_gt m e e' : e < e' -> shl_align m e e' = (m, e).
Proof.
  intros H. unfold shl_align. destruct (e' - e) as [|d|d] eqn:E; try done. lia.
Qed.

Lemma digits2_pos_shift m mz k :
  0 <= k -> Z.pos mz = Z.pos m * 2 ^ k ->
  Z.pos (digits2_pos mz) = Z.pos (digits2_pos m) + k.
Proof.
  intros Hk E. apply digits2_pos_unique. rewrite E.
  pose proof (digits2_pos_bounds m) as [Dlo Dhi].
  assert (Hp : 0 < 2 ^ k) by (by apply Z.pow_pos_nonneg).
  replace (Z.pos (digits2_pos m) + k - 1)
    with (Z.pos (digits2_pos m) - 1 + k) by lia.
  rewrite !Z.pow_add_r by lia. split.
  - by apply Z.mul_le_mono_nonneg_r; [lia|].
  - by apply Z.mul_lt_mono_pos_r.
Qed.

(** The float of a mantissa and an exponent, when the exponent is in range. *)
Lemma binary_round_aux_canonical mz e :
  fexp prec emax (Z.pos (digits2_pos mz) + e) = e ->
  binary_round_aux prec emax false (Z.pos mz) e loc_Exact
    = if e <=? 971 then S754_finite false mz e else S754_infinity false.
Proof.
  intros H. unfold binary_round_aux, shr_fexp.
  cbn [shr_record_of_loc Zdigits2]. rewrite H, Z.sub_diag.
  cbn [shr shr_m loc_of_shr_record round_nearest_even Zdigits2].
  rewrite H, Z.sub_diag. cbn [shr shr_m]. done.
Qed.

Lemma binary_round_exact m e :
  let e' := fexp prec emax (Z.pos (digits2_pos m) + e) in
  e' <= e ->
  exists mz,
    Z.pos mz = Z.pos m * 2 ^ (e - e') /\
    binary_round prec emax false m e
      = if e' <=? 971 then S754_finite false mz e' else S754_infinity false.
Proof.
  intros e' He. unfold binary_round. fold e'.
  destruct (shl_align_le m e e' He) as (mz & -> & Hmz).
  exists mz. split; [done|]. apply binary_round_aux_canonical.
  rewrite (digits2_pos_shift m mz (e - e')) by (done || lia).
  replace (Z.pos (digits2_pos m) + (e - e') + e')
    with (Z.pos (digits2_pos m) + e) by lia.
  done.
Qed.

Lemma shr_none mrs e n : n <= 0 -> shr mrs e n = (mrs, e).
Proof. intros H. unfold shr. destruct n; done. Qed.

Lemma digits2_pos_le m k : Z.pos m < 2 ^ k -> Z.pos (digits2_pos m) <= k.
Proof.
  intros H. pose proof (digits2_pos_bounds m) as [Dlo _].
  destruct (Z.le_gt_cases (Z.pos (digits2_pos m)) k) as [|Hgt]; [done|].
  assert (2 ^ k <= 2 ^ (Z.pos (digits2_pos m) - 1))
    by (apply Z.pow_le_mono_r; lia).
  lia.
Qed.

(** The last step of a rounding: a mantissa that has grown to [2 ^ 53] is
    halved. *)
Lemma round_finish x1 e' :
  -1074 <= e' -> 0 <= x1 <= 2 ^ 53 ->
  (let '(mrs, e'') := shr_fexp prec emax x1 e' loc_Exact in
   match shr_m mrs with
   | Z0 => S754_zero false
   | Z.pos m =>
       if e'' <=? emax - prec then S754_finite false m e''
       else S754_infinity false
   | Z.neg _ => S754_nan
   end) =
  if x1 =? 0 then S754_zero false
  else if x1 <? 2 ^ 53 then
    if e' <=? 971 then S754_finite false (Z.to_pos x1) e'
    else S754_infinity false
  else
    if e' + 1 <=? 971 then S754_finite false (Z.to_pos (2 ^ 52)) (e' + 1)
    else S754_infinity false.
Proof.
  intros He [Hlo Hhi]. unfold shr_fexp. cbn [shr_record_of_loc].
  destruct x1 as [|p1|p1]; [| |lia].
  - rewrite shr_none; [done|]. rewrite fexp64. simpl Zdigits2. lia.
  - change (Z.pos p1 =? 0) with false. cbn iota.
    destruct (Z.ltb_spec (Z.pos p1) (2 ^ 53)) as [Hlt|Hge].
    + rewrite shr_none; [done|]. rewrite fexp64. simpl Zdigits2.
      pose proof (digits2_pos_le p1 53 Hlt). lia.
    + assert (E : Z.pos p1 = 2 ^ 53) by lia.
      change (2 ^ 53) with (Z.pos 9007199254740992) in E.
      injection E as ->. rewrite fexp64.
      change (Zdigits2 (Z.pos 9007199254740992)) with 54.
      replace (Z.max (54 + e' - 53) (-1074) - e') with 1 by lia.
      reflexivity.
Qed.

Lemma nearest_even_bounds x n :
  0 <= x -> x / 2 ^ n <= Binary64.nearest_even x n <= x / 2 ^ n + 1.
Proof.
  intros Hx. unfold Binary64.nearest_even.
  destruct (2 ^ (n - 1) <? x mod 2 ^ n); [lia|].
  destruct ((x mod 2 ^ n =? 2 ^ (n - 1)) && Z.odd (x / 2 ^ n)); lia.
Qed.

Lemma binary_round_inexact m e :
  -1074 <= e ->
  let e' := fexp prec emax (Z.pos (digits2_pos m) + e) in
  e < e' ->
  let x1 := Binary64.nearest_even (Z.pos m) (e' - e) in
  0 <= x1 <= 2 ^ 53 /\
  binary_round prec emax false m e =
    if x1 =? 0 then S754_zero false
    else if x1 <? 2 ^ 53 then
      if e' <=? 971 then S754_finite false (Z.to_pos x1) e'
      else S754_infinity false
    else
      if e' + 1 <=? 971 then S754_finite false (Z.to_pos (2 ^ 52)) (e' + 1)
      else S754_infinity false.
Proof.
  intros Hmin e' He x1.
  assert (Hx1 : 0 <= x1 <= 2 ^ 53).
  { pose proof (nearest_even_bounds (Z.pos m) (e' - e) ltac:(lia)) as [B1 B2].
    fold x1 in B1, B2.
    assert (Hp : 0 < 2 ^ (e' - e)) by (apply Z.pow_pos_nonneg; lia).
    assert (0 <= Z.pos m / 2 ^ (e' - e)) by (apply Z.div_pos; lia).
    assert (Z.pos m / 2 ^ (e' - e) < 2 ^ 53); [|lia].
    apply Z.div_lt_upper_bound; [done|].
    rewrite <- Z.pow_add_r by lia.
    pose proof (digits2_pos_bounds m) as [_ Dhi].
    assert (2 ^ Z.pos (digits2_pos m) <= 2 ^ (e' - e + 53)); [|lia].
    apply Z.pow_le_mono_r; [lia|]. unfold e'. rewrite fexp64. lia. }
  split; [done|].
  unfold binary_round. fold e'. rewrite (shl_align_gt m e e' He).
  unfold binary_round_aux.
  unfold shr_fexp at 1. cbn [shr_record_of_loc Zdigits2]. fold e'.
  destruct (e' - e) as [|p|p] eqn:En; [lia| |lia].
  pose proof (shr_round (Z.pos m) e p ltac:(lia)) as Hs.
  destruct (shr _ e (Z.pos p)) as [mrs e1]. destruct Hs as [-> ->].
  replace (e + Z.pos p) with e' by lia.
  fold x1. apply round_finish; [|done].
  unfold e'. rewrite fexp64. lia.
Qed.

Lemma ltb_finite mr er mc ec :
  SFltb (S754_finite false mr er) (S754_finite false mc ec) = true <->
  er < ec \/ (er = ec /\ Z.pos mr < Z.pos mc).
Proof.
  unfold SFltb, SFcompare.
  destruct (Z.compare_spec er ec) as [->|H|H].
  - change (Pos.compare_cont Eq mr mc) with (Pos.compare mr mc).
    destruct (Pos.compare_spec mr mc) as [->|H|H];
      split; try done; intros; lia.
  - split; [intros _; by left|done].
  - split; [done|lia].
Qed.

Lemma ltb_in_range mr er mc ec :
  SFltb (if er <=? 971 then S754_finite false mr er else S754_infinity false)
        (S754_finite false mc ec) = true <->
  er <= 971 /\ (er < ec \/ (er = ec /\ Z.pos mr < Z.pos mc)).
Proof.
  destruct (Z.leb_spec er 971).
  - rewrite ltb_finite. tauto.
  - split; [done|lia].
Qed.

(** Where [2 * h * q + r] lies against the middle of [2 * h * (mc - 1)]
    and [2 * h * mc]. *)
Lemma half_way h q r mc :
  0 < h -> 0 <= r < 2 * h ->
  2 * h * q + r <= (2 * mc - 1) * h <->
  q < mc - 1 \/ (q = mc - 1 /\ r <= h).
Proof.
  intros Hh Hr.
  destruct (Z.lt_trichotomy q (mc - 1)) as [H|[->|H]].
  - assert (h * q <= h * (mc - 2)) by (apply Z.mul_le_mono_nonneg_l; lia).
    lia.
  - lia.
  - assert (h * mc <= h * q) by (apply Z.mul_le_mono_nonneg_l; lia).
    lia.
Qed.

(** Rounding against a float [mc * 2 ^ ec] of odd mantissa: the result is
    below it exactly when the number rounded is at most half-way between
    that float and the one before it. *)
Lemma round_below mc ec m e :
  2 ^ 52 < Z.pos mc < 2 ^ 53 -> Z.odd (Z.pos mc) = true ->
  -1073 <= ec <= 971 -> -1074 <= e ->
  SFltb (binary_round prec emax false m e) (S754_finite false mc ec) = true
  <-> Z.pos m * 2 ^ (e + 1074) <= (2 * Z.pos mc - 1) * 2 ^ (ec + 1073).
Proof.
  intros Hmc Hodd Hec He.
  pose proof (digits2_pos_bounds m) as [Dlo Dhi].
  set (d := Z.pos (digits2_pos m)) in *.
  assert (Hd : 1 <= d) by (unfold d; lia).
  set (a := e + 1074). set (b := ec + 1073).
  assert (Ha : 0 < 2 ^ a) by (apply Z.pow_pos_nonneg; lia).
  assert (Hb : 0 < 2 ^ b) by (apply Z.pow_pos_nonneg; lia).
  assert (Xlo : 2 ^ (d - 1 + a) <= Z.pos m * 2 ^ a).
  { rewrite Z.pow_add_r by lia. apply Z.mul_le_mono_nonneg_r; lia. }
  assert (Xhi : Z.pos m * 2 ^ a < 2 ^ (d + a)).
  { rewrite Z.pow_add_r by lia. apply Z.mul_lt_mono_pos_r; lia. }
  pose proof (binary_round_exact m e) as Hex.
  pose proof (binary_round_inexact m e He) as Hin.
  cbv zeta in Hex, Hin. rewrite fexp64 in Hex, Hin. fold d in Hex, Hin.
  change (2 ^ 53) with 9007199254740992 in *.
  change (2 ^ 52) with 4503599627370496 in *.
  destruct (Z.lt_trichotomy (d + e) (ec + 53)) as [Hlt|[Heq|Hgt]].
  - (* well below *)
    assert (R : Z.pos m * 2 ^ a <= (2 * Z.pos mc - 1) * 2 ^ b).
    { assert (H1 : 2 ^ (d + a) <= 2 ^ (b + 53))
        by (apply Z.pow_le_mono_r; lia).
      rewrite (Z.pow_add_r 2 b 53) in H1 by lia.
      change (2 ^ 53) with 9007199254740992 in H1.
      assert (2 ^ b * 9007199254740992 <= (2 * Z.pos mc - 1) * 2 ^ b);
        [|lia].
      rewrite (Z.mul_comm (2 ^ b)). apply Z.mul_le_mono_nonneg_r; lia. }
    split; [done|intros _].
    destruct (Z.le_gt_cases (Z.max (d + e - 53) (-1074)) e) as [Hc|Hc].
    + destruct (Hex Hc) as (mz & _ & ->). apply ltb_in_range. lia.
    + destruct (Hin Hc) as (Hx1 & ->).
      set (x1 := Binary64.nearest_even _ _) in *.
      destruct (Z.eqb_spec x1 0); [done|].
      destruct (Z.ltb_spec x1 9007199254740992).
      * apply ltb_in_range. lia.
      * apply ltb_in_range. simpl Z.to_pos. lia.
  - (* next to the float *)
    assert (E' : Z.max (d + e - 53) (-1074) = ec) by lia.
    rewrite E' in Hex, Hin.
    destruct (Z.le_gt_cases ec e) as [Hc|Hc].
    + destruct (Hex Hc) as (mz & Hmz & ->). rewrite ltb_in_range.
      assert (EX : Z.pos m * 2 ^ a = 2 * Z.pos mz * 2 ^ b).
      { rewrite Hmz. unfold a, b.
        replace (e + 1074) with (e - ec + 1 + (ec + 1073)) by lia.
        rewrite !Z.pow_add_r by lia. change (2 ^ 1) with 2. lia. }
      rewrite EX. split.
      * intros (_ & [?|[_ ?]]); [lia|]. apply Z.mul_le_mono_nonneg_r; lia.
      * intros H. apply Z.mul_le_mono_pos_r in H; [|done]. lia.
    + destruct (Hin Hc) as (Hx1 & ->).
      set (n := ec - e) in *.
      set (h := 2 ^ (n - 1)).
      assert (Hh : 0 < h) by (apply Z.pow_pos_nonneg; lia).
      assert (E2 : 2 ^ n = 2 * h).
      { unfold h. replace n with (n - 1 + 1) at 1 by lia.
        rewrite Z.pow_add_r by lia. change (2 ^ 1) with 2. lia. }
      assert (EB : 2 ^ b = h * 2 ^ a).
      { unfold h, a, b. rewrite <- Z.pow_add_r by lia. f_equal. lia. }
      pose proof (Z.div_mod (Z.pos m) (2 ^ n) ltac:(lia)) as Hdm.
      pose proof (Z.mod_pos_bound (Z.pos m) (2 ^ n) ltac:(lia)) as Hr.
      assert (Hq : 4503599627370496 <= Z.pos m / 2 ^ n < 9007199254740992).
      { split.
        - apply Z.div_le_lower_bound; [lia|].
          assert (2 ^ (n + 52) <= 2 ^ (d - 1)) by (apply Z.pow_le_mono_r; lia).
          rewrite Z.pow_add_r in * by lia.
          change (2 ^ 52) with 4503599627370496 in *. lia.
        - apply Z.div_lt_upper_bound; [lia|].
          assert (2 ^ d <= 2 ^ (n + 53)) by (apply Z.pow_le_mono_r; lia).
          rewrite Z.pow_add_r in * by lia.
          change (2 ^ 53) with 9007199254740992 in *. lia. }
      assert (R : Z.pos m * 2 ^ a <= (2 * Z.pos mc - 1) * 2 ^ b <->
                  Z.pos m <= (2 * Z.pos mc - 1) * h).
      { rewrite EB, Z.mul_assoc. split.
        - intros H. by apply Z.mul_le_mono_pos_r in H.
        - intros H. by apply Z.mul_le_mono_nonneg_r; [lia|]. }
      rewrite R. clear R.
      unfold Binary64.nearest_even in *. fold h in Hx1 |- *.
      set (q := Z.pos m / 2 ^ n) in *. set (r := Z.pos m mod 2 ^ n) in *.
      rewrite E2 in Hdm, Hr.
      rewrite Hdm, (half_way h q r (Z.pos mc)) by done.
      assert (Hoq : q = Z.pos mc - 1 -> Z.odd q = false).
      { intros ->. rewrite Z.sub_1_r, Z.odd_pred, <- Z.negb_odd, Hodd. done. }
      destruct (Z.ltb_spec h r) as [Hhr|Hhr].
      * destruct (Z.eqb_spec (q + 1) 0); [lia|].
        destruct (Z.ltb_spec (q + 1) 9007199254740992);
          rewrite ltb_in_range, ?Z2Pos.id by lia; lia.
      * destruct (Z.eqb_spec r h) as [Erh|Erh]; simpl.
        -- destruct (Z.odd q) eqn:Eo.
           ++ assert (q <> Z.pos mc - 1)
                by (intros Hq'; by specialize (Hoq Hq')).
              destruct (Z.eqb_spec (q + 1) 0); [lia|].
              destruct (Z.ltb_spec (q + 1) 9007199254740992);
                rewrite ltb_in_range, ?Z2Pos.id by lia; lia.
           ++ destruct (Z.eqb_spec q 0); [lia|].
              destruct (Z.ltb_spec q 9007199254740992); [|lia].
              rewrite ltb_in_range, Z2Pos.id by lia. lia.
        -- destruct (Z.eqb_spec q 0); [lia|].
           destruct (Z.ltb_spec q 9007199254740992); [|lia].
           rewrite ltb_in_range, Z2Pos.id by lia. lia.
  - (* well above *)
    assert (R : ~ Z.pos m * 2 ^ a <= (2 * Z.pos mc - 1) * 2 ^ b).
    { assert (H1 : 2 ^ (b + 54) <= 2 ^ (d - 1 + a))
        by (apply Z.pow_le_mono_r; lia).
      rewrite (Z.pow_add_r 2 b 54) in H1 by lia.
      change (2 ^ 54) with 18014398509481984 in H1.
      assert ((2 * Z.pos mc - 1) * 2 ^ b < 2 ^ b * 18014398509481984);
        [|lia].
      rewrite (Z.mul_comm (2 ^ b)). apply Z.mul_lt_mono_pos_r; lia. }
    split; [|done]. intros L. exfalso.
    assert (E' : Z.max (d + e - 53) (-1074) = d + e - 53) by lia.
    rewrite E' in Hex, Hin.
    destruct (Z.le_gt_cases (d + e - 53) e) as [Hc|Hc].
    + destruct (Hex Hc) as (mz & _ & Hr). rewrite Hr in L.
      apply ltb_in_range in L. lia.
    + destruct (Hin Hc) as (Hx1 & Hr). rewrite Hr in L. clear Hr.
      pose proof (nearest_even_bounds (Z.pos m) (d + e - 53 - e) ltac:(lia))
        as [B1 _].
      assert (4503599627370496 <= Z.pos m / 2 ^ (d + e - 53 - e)).
      { apply Z.div_le_lower_bound; [apply Z.pow_pos_nonneg; lia|].
        replace (d - 1) with (d + e - 53 - e + 52) in Dlo by lia.
        rewrite Z.pow_add_r in Dlo by lia.
        change (2 ^ 52) with 4503599627370496 in *. lia. }
      set (x1 := Binary64.nearest_even _ _) in *.
      destruct (Z.eqb_spec x1 0); [lia|].
      destruct (Z.ltb_spec x1 9007199254740992);
        apply ltb_in_range in L; lia.
Qed.

Lemma valid_finite s m e :
  valid_binary (S754_finite s m e) = true ->
  fexp prec emax (Z.pos (digits2_pos m) + e) = e /\ -1074 <= e <= 971.
Proof.
  unfold valid_binary, SpecFloat.valid_binary, bounded, canonical_mantissa.
  rewrite andb_true_iff, Z.eqb_eq, Z.leb_le.
  change (emax - prec) with 971. intros [H1 H2]. split; [done|].
  rewrite fexp64 in H1. lia.
Qed.

Lemma binary_round_canonical m e :
  fexp prec emax (Z.pos (digits2_pos m) + e) = e -> e <= 971 ->
  binary_round prec emax false m e = S754_finite false m e.
Proof.
  intros H1 H2. pose proof (binary_round_exact m e) as Hex.
  cbv zeta in Hex. rewrite H1 in Hex.
  destruct (Hex ltac:(lia)) as (mz & Hmz & ->).
  rewrite Z.sub_diag, Z.mul_1_r in Hmz. injection Hmz as ->.
  destruct (Z.leb_spec e 971); [done|lia].
Qed.

Lemma SFabs_round s m e :
  SFabs (binary_round prec emax s m e) = binary_round prec emax false m e.
Proof.
  unfold binary_round, binary_round_aux.
  destruct (shl_align m e _) as [mz ez].
  destruct (shr_fexp prec emax (Z.pos mz) ez loc_Exact) as [mrs' e'].
  destruct (shr_fexp prec emax _ e' loc_Exact) as [mrs'' e''].
  destruct (shr_m mrs''); try done.
  by destruct (e'' <=? emax - prec)%Z.
Qed.

Lemma normalize_below mc ec M e :
  2 ^ 52 < Z.pos mc < 2 ^ 53 -> Z.odd (Z.pos mc) = true ->
  -1073 <= ec <= 971 -> -1074 <= e ->
  SFltb (SFabs (binary_normalize prec emax M e false))
        (S754_finite false mc ec) = true
  <-> Z.abs M * 2 ^ (e + 1074) <= (2 * Z.pos mc - 1) * 2 ^ (ec + 1073).
Proof.
  intros Hmc Hodd Hec He.
  destruct M as [|mm|mm]; unfold binary_normalize.
  - split; [intros _|done]. simpl Z.abs. rewrite Z.mul_0_l.
    apply Z.mul_nonneg_nonneg; [lia|]. apply Z.pow_nonneg. lia.
  - rewrite SFabs_round. by apply round_below.
  - rewrite SFabs_round. by apply round_below.
Qed.

(** The difference of two doubles that are numbers, as [-] rounds it, is
    below a float of odd mantissa exactly when the difference itself is at
    most half-way between that float and the one before it. *)
Lemma sub_below mc ec x y :
  2 ^ 52 < Z.pos mc < 2 ^ 53 -> Z.odd (Z.pos mc) = true ->
  -1073 <= ec <= 971 ->
  valid_binary x = true -> valid_binary y = true ->
  Binary64.is_number x = true -> Binary64.is_number y = true ->
  SFltb (SFabs (SF64sub x y)) (S754_finite false mc ec) = true
  <-> Z.abs (Binary64.units x - Binary64.units y)
        <= (2 * Z.pos mc - 1) * 2 ^ (ec + 1073).
Proof.
  intros Hmc Hodd Hec Vx Vy Nx Ny.
  assert (HT : 0 <= (2 * Z.pos mc - 1) * 2 ^ (ec + 1073)).
  { apply Z.mul_nonneg_nonneg; [lia|]. apply Z.pow_nonneg. lia. }
  destruct x as [sx|sx| |sx mx ex], y as [sy|sy| |sy my ey]; try done.
  - (* zero, zero *)
    split; [done|intros _]. by destruct sx, sy.
  - (* zero, number *)
    destruct (valid_finite _ _ _ Vy) as (Cy & Ey).
    unfold SF64sub, SFsub, SFabs.
    rewrite <- (binary_round_canonical my ey) by (done || lia).
    rewrite round_below by (done || lia). unfold Binary64.units.
    replace (Z.abs (0 - (if sy then Z.neg my else Z.pos my) * 2 ^ (ey + 1074)))
      with (Z.pos my * 2 ^ (ey + 1074)); [done|].
    assert (0 <= 2 ^ (ey + 1074)) by (apply Z.pow_nonneg; lia).
    destruct sy; lia.
  - (* number, zero *)
    destruct (valid_finite _ _ _ Vx) as (Cx & Ex).
    unfold SF64sub, SFsub, SFabs.
    rewrite <- (binary_round_canonical mx ex) by (done || lia).
    rewrite round_below by (done || lia). unfold Binary64.units.
    replace (Z.abs ((if sx then Z.neg mx else Z.pos mx) * 2 ^ (ex + 1074) - 0))
      with (Z.pos mx * 2 ^ (ex + 1074)); [done|].
    assert (0 <= 2 ^ (ex + 1074)) by (apply Z.pow_nonneg; lia).
    destruct sx; lia.
  - (* number, number *)
    destruct (valid_finite _ _ _ Vx) as (Cx & Ex).
    destruct (valid_finite _ _ _ Vy) as (Cy & Ey).
    unfold SF64sub, SFsub. cbv zeta.
    rewrite normalize_below by (done || lia).
    destruct (shl_align_le mx ex (Z.min ex ey) ltac:(lia)) as (mx' & -> & Hx).
    destruct (shl_align_le my ey (Z.min ex ey) ltac:(lia)) as (my' & -> & Hy).
    cbn [fst]. unfold Binary64.units.
    set (ez := Z.min ex ey) in *.
    assert (Hp : 0 < 2 ^ (ez + 1074)) by (apply Z.pow_pos_nonneg; lia).
    assert (Ex' : 2 ^ (ex + 1074) = 2 ^ (ex - ez) * 2 ^ (ez + 1074)).
    { rewrite <- Z.pow_add_r by lia. f_equal. lia. }
    assert (Ey' : 2 ^ (ey + 1074) = 2 ^ (ey - ez) * 2 ^ (ez + 1074)).
    { rewrite <- Z.pow_add_r by lia. f_equal. lia. }
    rewrite Ex', Ey'.
    replace ((if sx then Z.neg mx else Z.pos mx) *
               (2 ^ (ex - ez) * 2 ^ (ez + 1074)) -
             (if sy then Z.neg my else Z.pos my) *
               (2 ^ (ey - ez) * 2 ^ (ez + 1074)))
      with ((cond_Zopp sx (Z.pos mx') - cond_Zopp sy (Z.pos my'))
              * 2 ^ (ez + 1074)).
    + by rewrite Z.abs_mul, (Z.abs_eq (2 ^ (ez + 1074))) by lia.
    + rewrite Hx, Hy. unfold cond_Zopp. destruct sx, sy; lia.
Qed.

Lemma pow2_units e :
  -1074 <= e -> (2 ^ e == inject_Z (2 ^ (e + 1074)) * 2 ^ (-1074))%Q.
Proof.
  intros He. rewrite Zpower_Qpower by lia.
  change (inject_Z 2) with 2%Q. rewrite <- Qpower_plus by done.
  by replace (e + 1074 + -1074) with e by lia.
Qed.

Lemma exact_units p x :
  Price.exact p = Some x ->
  Binary64.is_number (Prim2SF p) = true /\
  (x == inject_Z (Binary64.units (Prim2SF p)) * 2 ^ (-1074))%Q.
Proof.
  unfold Price.exact. pose proof (FloatAxioms.Prim2SF_valid p) as V.
  destruct (Prim2SF p) as [s|s| |s m e]; try done; intros [= <-].
  - split; [done|]. simpl Binary64.units. by rewrite Qmult_0_l.
  - split; [done|]. destruct (valid_finite _ _ _ V) as (_ & He).
    unfold Binary64.units. rewrite inject_Z_mult, (pow2_units e) by lia.
    by rewrite Qmult_assoc.
Qed.

(** [abs(p - q) < 0.01] in terms of the numbers the two doubles stand
    for. The bound is half-way between the double [0.01] and the double
    before it, less than [7e-19] below one hundredth. *)
Lemma close_exact p q x y :
  Price.exact p = Some x -> Price.exact q = Some y ->
  PrimFloat.ltb (PrimFloat.abs (PrimFloat.sub p q)) 0.01%float = true <->
  (Qabs (x - y) <= inject_Z 11529215046068469 * 2 ^ (-60))%Q.
Proof.
  intros Hx Hy.
  destruct (exact_units p x Hx) as (Nx & Ex).
  destruct (exact_units q y Hy) as (Ny & Ey).
  rewrite FloatAxioms.ltb_spec, FloatAxioms.abs_spec, FloatAxioms.sub_spec.
  change (Prim2SF 0.01) with (S754_finite false 5764607523034235 (-59)).
  rewrite (sub_below 5764607523034235 (-59)); try done;
    try apply FloatAxioms.Prim2SF_valid.
  change ((2 * Z.pos 5764607523034235 - 1) * 2 ^ (-59 + 1073))
    with (11529215046068469 * 2 ^ (-60 + 1074)).
  assert (Ht : (0 < 2 ^ (-1074))%Q) by (by apply Qpower_0_lt).
  rewrite Ex, Ey, (pow2_units (-60)) by lia.
  rewrite Qmult_assoc, <- inject_Z_mult.
  set (ux := Binary64.units (Prim2SF p)).
  set (uy := Binary64.units (Prim2SF q)).
  assert (E : (inject_Z ux * 2 ^ (-1074) - inject_Z uy * 2 ^ (-1074)
               == inject_Z (ux - uy) * 2 ^ (-1074))%Q).
  { unfold Z.sub. rewrite inject_Z_plus, inject_Z_opp. ring. }
  rewrite E, Qabs_Qmult, (Qabs_pos (2 ^ (-1074))) by (by apply Qlt_le_weak).
  change (Qabs (inject_Z (ux - uy))) with (inject_Z (Z.abs (ux - uy))).
  rewrite Qmult_le_r by done. by rewrite <- Zle_Qle.
Qed.

Lemma nine_mills_within :
  (0.009 <= inject_Z 11529215046068469 * 2 ^ (-60))%Q.
Proof. apply Qle_bool_imp_le. reflexivity. Qed.

Lemma cent_beyond : (inject_Z 11529215046068469 * 2 ^ (-60) < 0.01)%Q.
Proof. apply Qlt_alt. reflexivity. Qed.

End Rounding.


(** ** The entity *)

Section Entity.

Implicit Types a b it : MenuItem.

(** [equals] as one conjunction: the early [return False] and the final
    choice between the image names and [images_match] say the same. *)
Lemma equals_unfold a b :
  equals a b =
    bool_decide (name a = name b) &&
    bool_decide (description a = description b) &&
    Price.close (price a) (price b) &&
    bool_decide (category_id a = category_id b) &&
    match image a, image b with
    | None, None => true
    | Some x, Some y =>
        bool_decide (x = y) && bool_decide (image_name a = image_name b)
    | _, _ => false
    end.
Proof.
  unfold equals.
  destruct (bool_decide (name a = name b)),
    (bool_decide (description a = description b)),
    (Price.close (price a) (price b)),
    (bool_decide (category_id a = category_id b)); simpl; try done.
  destruct (image a) as [x|], (image b) as [y|]; simpl; try done.
  by destruct (bool_decide (x = y)).
Qed.

(** Items that agree on the name, the description, the category and the
    image columns are equal as soon as their prices are close. *)
Lemma equals_same_but_price a b :
  name a = name b -> description a = description b ->
  category_id a = category_id b ->
  image a = image b -> image_name a = image_name b ->
  equals a b = Price.close (price a) (price b).
Proof.
  intros Hn Hd Hc Hi Hin. rewrite equals_unfold, Hn, Hd, Hc, Hi, Hin.
  rewrite !bool_decide_eq_true_2 by done. simpl.
  destruct (image b) as [y|]; simpl.
  - rewrite !bool_decide_eq_true_2 by done. simpl. by rewrite !andb_true_r.
  - by rewrite !andb_true_r.
Qed.

(** C1. [equals a b] is true exactly when the names are the same, the
    descriptions are the same, the absolute difference of the prices is
    below 0.01 (the binary64 [abs], [-] and [<] of [abs(p - q) < 0.01]),
    the category ids are the same, and either both images are absent (the
    image names are then not compared) or both are present with the same
    bytes and the same image name. *)
Theorem equals_iff a b :
  equals a b = true <->
    name a = name b /\
    description a = description b /\
    PrimFloat.ltb (PrimFloat.abs (PrimFloat.sub (price a) (price b)))
                  0.01%float = true /\
    category_id a = category_id b /\
    ((image a = None /\ image b = None) \/
     (exists x, image a = Some x /\ image b = Some x /\
                image_name a = image_name b)).
Proof.
  rewrite equals_unfold, !andb_true_iff, !bool_decide_eq_true.
  unfold Price.close, Price.abs_diff.
  destruct (image a) as [x|] eqn:Ha, (image b) as [y|] eqn:Hb.
  - rewrite andb_true_iff, !bool_decide_eq_true. split.
    + intros ((((Hn & Hd) & Hp) & Hc) & (-> & Hin)).
      split_and!; try done. right. by exists y.
    + intros (Hn & Hd & Hp & Hc & [[? ?]|(z & [= ->] & [= ->] & Hin)]);
        [done|]. by split_and!.
  - split; [by intros (_ & ?)|].
    intros (_ & _ & _ & _ & [[? ?]|(z & _ & ? & _)]); done.
  - split; [by intros (_ & ?)|].
    intros (_ & _ & _ & _ & [[? ?]|(z & ? & _ & _)]); done.
  - split.
    + intros ((((Hn & Hd) & Hp) & Hc) & _). split_and!; try done. by left.
    + intros (Hn & Hd & Hp & Hc & _). by split_and!.
Qed.

Lemma truthy_str_iff (s : string) : truthy_str s = true <-> s <> EmptyString.
Proof. by destruct s. Qed.

Lemma truthy_int_iff (n : option Z) :
  truthy_int n = true <-> exists c, n = Some c /\ c <> 0.
Proof.
  destruct n as [c|]; simpl; [|naive_solver].
  rewrite negb_true_iff, Z.eqb_neq. naive_solver.
Qed.

Lemma truthy_bytes_iff (b : option bytes) :
  truthy_bytes b = true <-> exists x xs, b = Some (x :: xs).
Proof. destruct b as [[|x xs]|]; simpl; naive_solver. Qed.

(** C4. [is_complete] is true exactly when the name and the description
    are non-empty, the image is neither null nor empty, the category id is
    neither null nor zero, and the price is above zero; it is false as
    soon as one of the five fails. *)
Theorem is_complete_iff it :
  (is_complete it = true <->
     name it <> EmptyString /\
     description it <> EmptyString /\
     (exists x xs, image it = Some (x :: xs)) /\
     (exists c, category_id it = Some c /\ c <> 0) /\
     PrimFloat.ltb 0%float (price it) = true) /\
  (is_complete it = false <->
     name it = EmptyString \/
     description it = EmptyString \/
     image it = None \/ image it = Some [] \/
     category_id it = None \/ category_id it = Some 0 \/
     PrimFloat.ltb 0%float (price it) = false).
Proof.
  unfold is_complete, Price.positive. split.
  - rewrite !andb_true_iff, !truthy_str_iff, truthy_int_iff,
      truthy_bytes_iff. naive_solver.
  - rewrite !andb_false_iff.
    destruct (name it), (description it), (image it) as [[|x xs]|],
      (category_id it) as [[|p|p]|], (PrimFloat.ltb 0 (price it));
      simpl; naive_solver.
Qed.

(** C7. Two items that agree on every field but the price: when the
    absolute price difference is at most 0.009 they are equal, when it is
    0.01 or more they are not. This holds of the difference as the code
    computes it, the binary64 [abs(p - q)] against the doubles [0.009] and
    [0.01], and of the difference of the numbers the two prices stand
    for, against nine thousandths and one hundredth. *)
Theorem equals_price_tolerance a b :
  name a = name b ->
  description a = description b ->
  category_id a = category_id b ->
  image a = image b ->
  image_name a = image_name b ->
  (PrimFloat.leb (PrimFloat.abs (PrimFloat.sub (price a) (price b)))
                 0.009%float = true ->
   equals a b = true) /\
  (PrimFloat.leb 0.01%float
                 (PrimFloat.abs (PrimFloat.sub (price a) (price b))) = true ->
   equals a b = false) /\
  (forall x y : Q,
      Price.exact (price a) = Some x -> Price.exact (price b) = Some y ->
      ((Qabs (x - y) <= 0.009)%Q -> equals a b = true) /\
      ((0.01 <= Qabs (x - y))%Q -> equals a b = false)).
Proof.
  intros Hn Hd Hc Hi Hin.
  rewrite (equals_same_but_price a b) by done.
  unfold Price.close, Price.abs_diff.
  split_and!.
  - intros Hp. by apply within_nine_mills_lt_cent.
  - intros Hp. by apply cent_or_more_not_lt.
  - intros x y Hx Hy.
    pose proof (close_exact (price a) (price b) x y Hx Hy) as H. split.
    + intros Hp. apply H.
      eapply Qle_trans; [exact Hp|apply nine_mills_within].
    + intros Hp. apply not_true_is_false. intros Ht. apply H in Ht.
      apply (Qlt_not_le _ _ cent_beyond). by eapply Qle_trans.
Qed.

Lemma equals_price_tolerance_witness :
  equals Cafe.tea (priced 2.505%float Cafe.tea) = true /\
  equals Cafe.tea (priced 2.52%float Cafe.tea) = false /\
  equals Cafe.tea (priced 2.509%float Cafe.tea) = true /\
  equals Cafe.tea (priced 2.51%float (priced 2.5%float Cafe.tea)) = true /\
  equals (priced 2%float Cafe.tea) (priced 2.25%float Cafe.tea) = false.
Proof.
  destruct (equals_price_tolerance Cafe.tea (priced 2.505%float Cafe.tea)
              eq_refl eq_refl eq_refl eq_refl eq_refl) as (H1 & _ & _).
  destruct (equals_price_tolerance Cafe.tea (priced 2.52%float Cafe.tea)
              eq_refl eq_refl eq_refl eq_refl eq_refl) as (_ & H2 & _).
  destruct (equals_price_tolerance Cafe.tea (priced 2.509%float Cafe.tea)
              eq_refl eq_refl eq_refl eq_refl eq_refl) as (_ & _ & H3).
  destruct (equals_price_tolerance (priced 2%float Cafe.tea)
              (priced 2.25%float Cafe.tea)
              eq_refl eq_refl eq_refl eq_refl eq_refl) as (_ & _ & H4).
  split_and!.
  - exact (H1 eq_refl).
  - exact (H2 eq_refl).
  - refine (proj1 (H3 _ _ eq_refl eq_refl) _).
    apply Qle_bool_imp_le. reflexivity.
  - reflexivity.
  - refine (proj2 (H4 _ _ eq_refl eq_refl) _).
    apply Qle_bool_imp_le. reflexivity.
Defined.

(** The doubles nearest to 9.99 and 10.00 stand for numbers more than nine
    thousandths and less than one hundredth apart, and so is the
    difference as the code computes it: two such prices compare as
    close. *)
Example a_cent_apart_on_paper :
  (exists x y : Q,
      Price.exact 9.99%float = Some x /\ Price.exact 10%float = Some y /\
      (0.009 < Qabs (x - y))%Q /\ (Qabs (x - y) < 0.01)%Q) /\
  PrimFloat.ltb (PrimFloat.abs (PrimFloat.sub 9.99 10)) 0.01%float = true /\
  PrimFloat.leb (PrimFloat.abs (PrimFloat.sub 9.99 10)) 0.009%float = false /\
  equals (priced 9.99%float Cafe.tea) (priced 10%float Cafe.tea) = true.
Proof.
  split_and!; try reflexivity.
  eexists _, _. split_and!; try reflexivity; apply Qlt_alt; reflexivity.
Qed.

End Entity.

(** ** Running the methods *)

Section Running.

Implicit Types (w : World) (l : loc) (it cur : MenuItem) (i : Z).

Lemma bind_returns {A B} (m : M A) (k : A -> M B) w a w' :
  m w = (Returns a, w') -> (m ≫= k) w = k a w'.
Proof. intros H. unfold mbind, M_bind. by rewrite H. Qed.

Lemma bind_raises {A B} (m : M A) (k : A -> M B) w e w' :
  m w = (Raises e, w') -> (m ≫= k) w = (Raises e, w').
Proof. intros H. unfold mbind, M_bind. by rewrite H. Qed.

Lemma get_obj_run w l it :
  heap w !! l = Some it -> get_obj l w = (Returns it, w).
Proof. intros H. unfold get_obj. by rewrite H. Qed.

Lemma ensure_connection_run w :
  online w = true -> ensure_connection w = (Returns tt, live w).
Proof.
  unfold online, ensure_connection, connect, live.
  destruct (connection w) as [[]|]; try done; by intros ->.
Qed.

Lemma ensure_connection_offline w :
  online w = false ->
  ensure_connection w =
    (Raises (Exception "Error connecting to database"), w).
Proof.
  unfold online, ensure_connection, connect.
  destruct (connection w) as [[]|]; try done; by intros ->.
Qed.

Lemma ensure_connection_connected w :
  connection w = Some true -> ensure_connection w = (Returns tt, w).
Proof. unfold ensure_connection. by intros ->. Qed.

Lemma connected_online w : connection w = Some true -> online w = true.
Proof. unfold online. by intros ->. Qed.

Lemma read_only_refl w : read_only w w.
Proof. exists []. split; [by rewrite app_nil_r | constructor]. Qed.

Lemma read_only_trans w1 w2 w3 :
  read_only w1 w2 -> read_only w2 w3 -> read_only w1 w3.
Proof.
  intros (e1 & H1 & F1) (e2 & H2 & F2). exists (e1 ++ e2). split.
  - by rewrite H2, H1, app_assoc.
  - by apply Forall_app.
Qed.

Lemma store_unchanged_trans w1 w2 w3 :
  store_unchanged w1 w2 -> store_unchanged w2 w3 -> store_unchanged w1 w3.
Proof.
  unfold store_unchanged. intros (?&?&?&?&?) (?&?&?&?&?).
  split_and!; congruence.
Qed.

Lemma live_spec w :
  online w = true ->
  heap (live w) = heap w /\ store_unchanged w (live w) /\
  read_only w (live w) /\ connection (live w) = Some true.
Proof.
  unfold live, online, store_unchanged.
  destruct (connection w) as [[]|] eqn:E; intros Hr.
  - split_and!; try done. apply read_only_refl.
  - split_and!; try done. exists [EvConnect]; split; [done|repeat constructor].
  - split_and!; try done. exists [EvConnect]; split; [done|repeat constructor].
Qed.

Lemma select_item_unchanged w w' i :
  store_unchanged w w' -> select_item w' i = select_item w i.
Proof. intros (Hm & Hc & _). unfold select_item. by rewrite Hm, Hc. Qed.

Lemma select_item_row w i cur :
  select_item w i = Some cur ->
  exists old cname,
    menu_items w !! i = Some old /\
    categories w !! row_category_id old = Some cname /\
    cur = hydrate i old cname.
Proof.
  unfold select_item. intros H.
  apply bind_Some in H as (old & Hold & H).
  apply bind_Some in H as (cname & Hc & [= <-]).
  by exists old, cname.
Qed.

Lemma select_item_hydrate w i old cname :
  menu_items w !! i = Some old ->
  categories w !! row_category_id old = Some cname ->
  select_item w i = Some (hydrate i old cname).
Proof. intros H1 H2. unfold select_item. rewrite H1. simpl. by rewrite H2. Qed.

Lemma read_menu_item_run w i :
  connection w = Some true ->
  read_menu_item i w = (Returns (select_item w i), log EvSelect w).
Proof.
  intros H. unfold read_menu_item.
  by rewrite (bind_returns _ _ _ _ _ (ensure_connection_connected w H)).
Qed.

Lemma row_of_item_categories w w' it :
  categories w' = categories w -> row_of_item w' it = row_of_item w it.
Proof. intros H. unfold row_of_item. by rewrite H. Qed.

(** *** The carried item *)

Lemma carry_absent cur it :
  truthy_bytes (image it) = false -> carry cur it = copy_image cur it.
Proof. unfold carry. by intros ->. Qed.

Lemma carry_carry cur it : carry cur (carry cur it) = carry cur it.
Proof.
  unfold carry. destruct (truthy_bytes (image it)) eqn:E; [by rewrite E|].
  by destruct (truthy_bytes (image (copy_image cur it))).
Qed.

Lemma copy_image_carry cur it :
  truthy_bytes (image (carry cur it)) = false ->
  copy_image cur (carry cur it) = carry cur it.
Proof.
  unfold carry. destruct (truthy_bytes (image it)) eqn:E; [congruence|done].
Qed.

Lemma id_carry cur it : id (carry cur it) = id it.
Proof. unfold carry. by destruct (truthy_bytes (image it)). Qed.

(** *** The row an UPDATE writes *)

Lemma row_of_item_Some w it new :
  row_of_item w it = Some new ->
  exists c,
    category_id it = Some c /\ is_Some (categories w !! c) /\
    Price.finite (price it) = true /\
    new = mkRow (name it) (description it) (price it) c
                (image it) (image_name it).
Proof.
  unfold row_of_item. destruct (category_id it) as [c|]; [|done].
  destruct (bool_decide _ && _) eqn:E; [|done].
  apply andb_prop in E as [E1 E2]. apply bool_decide_eq_true in E1.
  intros [= <-]. by exists c.
Qed.

(** The row just written reads back equal to the item it was written
    from. *)
Lemma written_row_equals w it new i cname :
  row_of_item w it = Some new -> equals (hydrate i new cname) it = true.
Proof.
  intros H. apply row_of_item_Some in H as (c & Hc & _ & Hfin & ->).
  rewrite equals_same_but_price by done. simpl. by apply close_refl.
Qed.

Lemma written_row_carry w it new i cname :
  row_of_item w it = Some new -> carry (hydrate i new cname) it = it.
Proof.
  intros H. apply row_of_item_Some in H as (c & Hc & _ & Hfin & ->).
  unfold carry. destruct (truthy_bytes (image it)); [done|].
  by destruct it.
Qed.

Lemma written_row_carry_fresh w cur it new i cname :
  row_of_item w (carry cur it) = Some new ->
  carry (hydrate i new cname) it = carry cur it.
Proof.
  intros H. apply row_of_item_Some in H as (c & Hc & _ & Hfin & ->).
  unfold carry in *. by destruct (truthy_bytes (image it)).
Qed.

(** An UPDATE that leaves the row as it was: the item equals the row. *)
Lemma row_eqb_equals w i old cname it new :
  row_of_item w it = Some new -> row_eqb old new = true ->
  equals (hydrate i old cname) it = true.
Proof.
  intros H. apply row_of_item_Some in H as (c & Hc & _ & Hfin & ->).
  unfold row_eqb. simpl.
  rewrite !andb_true_iff, !bool_decide_eq_true.
  intros (((((Hn & Hd) & Hp) & Hcat) & Hi) & Hin).
  apply FloatAxioms.Leibniz.eqb_spec in Hp.
  rewrite equals_same_but_price by (simpl; congruence).
  simpl. rewrite Hp. by apply close_refl.
Qed.

(** *** [has_changes] *)

Lemma holding_same l it w :
  heap w !! l = Some it -> holding l it w = w.
Proof.
  intros H. unfold holding. rewrite insert_id by done. by destruct w.
Qed.

Lemma has_changes_run w l it i cur :
  online w = true -> heap w !! l = Some it -> select_item w i = Some cur ->
  has_changes i l w =
    (Returns (negb (equals cur (carry cur it))),
     holding l (carry cur it) (log EvSelect (live w))).
Proof.
  intros Hon Hl Hsel. unfold has_changes.
  destruct (live_spec w Hon) as (Hh & Hs & Hr & Hc).
  rewrite (bind_returns _ _ _ _ _ (ensure_connection_run w Hon)).
  rewrite (bind_returns _ _ _ _ _ (read_menu_item_run _ i Hc)).
  rewrite (select_item_unchanged _ _ _ Hs), Hsel.
  assert (Hl' : heap (log EvSelect (live w)) !! l = Some it)
    by (simpl; by rewrite Hh).
  rewrite (bind_returns _ _ _ _ _ (get_obj_run _ _ _ Hl')).
  unfold carry. destruct (truthy_bytes (image it)); simpl.
  - unfold mbind, M_bind, mret, M_ret.
    rewrite (get_obj_run _ _ _ Hl'). by rewrite holding_same.
  - unfold mbind, M_bind, mret, M_ret, set_obj, get_obj, holding. simpl.
    by rewrite lookup_insert_eq.
Qed.

Lemma has_changes_world w l it i cur :
  online w = true ->
  let w' := holding l (carry cur it) (log EvSelect (live w)) in
  heap w' = <[l := carry cur it]> (heap w) /\
  store_unchanged w w' /\ read_only w w' /\ connection w' = Some true.
Proof.
  intros Hon. destruct (live_spec w Hon) as (Hh & Hs & Hr & Hc).
  simpl. rewrite Hh. split_and!; try done.
  destruct Hr as (evs & Ht & Hf). exists (evs ++ [EvSelect]). split.
  - simpl. by rewrite Ht, app_assoc.
  - apply Forall_app. split; [done|repeat constructor].
Qed.

(** *** [update_menu_item] *)

(** Past the guard on the id. *)
Lemma update_menu_item_guard w l it i :
  heap w !! l = Some it -> id it = Some i -> i <> 0 ->
  update_menu_item l w =
    (_ ← ensure_connection;
     changed ← has_changes i l;
     if negb changed then mret false
     else
       it1 ← get_obj l;
       _ ← (if negb (truthy_bytes (image it1))
            then
              current_item ← read_menu_item i;
              match current_item with
              | Some cur => set_obj l (copy_image cur it1)
              | None => mret tt
              end
            else mret tt);
       it2 ← get_obj l;
       r ← execute_update it2 i;
       match r with
       | Some rowcount => _ ← emit EvCommit; mret (0 <? rowcount)
       | None =>
           _ ← emit EvRollback;
           raise (Exception "Error updating menu item")
       end) w.
Proof.
  intros Hl Hid Hi. unfold update_menu_item.
  rewrite (bind_returns _ _ _ _ _ (get_obj_run _ _ _ Hl)), Hid.
  by destruct i.
Qed.

(** An item that is not complete is turned away at once. *)
Lemma create_menu_item_incomplete w l it :
  heap w !! l = Some it -> is_complete it = false ->
  create_menu_item l w =
    (Raises (ValueError "All fields are required to create a menu item"), w).
Proof.
  intros Hl Hc. unfold create_menu_item.
  rewrite (bind_returns _ _ _ _ _ (get_obj_run _ _ _ Hl)). by rewrite Hc.
Qed.

(** With no id, or with no way to the store, nothing happens. *)
Lemma update_menu_item_unset w l it :
  heap w !! l = Some it -> truthy_int (id it) = false ->
  update_menu_item l w =
    (Raises (ValueError "Item ID is required for update"), w).
Proof.
  intros Hl Hid. unfold update_menu_item.
  rewrite (bind_returns _ _ _ _ _ (get_obj_run _ _ _ Hl)).
  by destruct (id it) as [[|p|p]|].
Qed.

Lemma update_menu_item_offline w l it i :
  heap w !! l = Some it -> id it = Some i -> i <> 0 ->
  online w = false ->
  update_menu_item l w =
    (Raises (Exception "Error connecting to database"), w).
Proof.
  intros Hl Hid Hi Hoff.
  rewrite (update_menu_item_guard _ _ _ _ Hl Hid Hi).
  by rewrite (bind_raises _ _ _ _ _ (ensure_connection_offline w Hoff)).
Qed.

(** The three ways an update of a stored row goes: no change detected;
    a change written; a change the store refuses. *)
Lemma update_run w l it i cur :
  online w = true -> heap w !! l = Some it -> id it = Some i -> i <> 0 ->
  select_item w i = Some cur ->
  exists w',
    heap w' = <[l := carry cur it]> (heap w) /\
    connection w' = Some true /\
    categories w' = categories w /\ found_rows w' = found_rows w /\
    ((equals cur (carry cur it) = true /\
      update_menu_item l w = (Returns false, w') /\
      store_unchanged w w' /\ read_only w w')
     \/ (equals cur (carry cur it) = false /\
         exists new, row_of_item w (carry cur it) = Some new /\
           update_menu_item l w = (Returns true, w') /\
           menu_items w' = <[i := new]> (menu_items w))
     \/ (equals cur (carry cur it) = false /\
         row_of_item w (carry cur it) = None /\
         update_menu_item l w =
           (Raises (Exception "Error updating menu item"), w') /\
         store_unchanged w w')).
Proof.
  intros Hon Hl Hid Hi Hsel.
  rewrite (update_menu_item_guard _ _ _ _ Hl Hid Hi).
  destruct (live_spec w Hon) as (Hh & Hs & Hr & Hc).
  assert (Hl0 : heap (live w) !! l = Some it) by (by rewrite Hh).
  assert (Hsel0 : select_item (live w) i = Some cur)
    by (by rewrite (select_item_unchanged _ _ _ Hs)).
  pose proof (has_changes_run _ _ _ _ _ (connected_online _ Hc) Hl0 Hsel0)
    as E.
  destruct (has_changes_world (live w) l it i cur (connected_online _ Hc))
    as (Hh1 & Hs1 & Hr1 & Hc1).
  set (w1 := holding l (carry cur it) (log EvSelect (live (live w)))) in *.
  clearbody w1.
  assert (Hs01 := store_unchanged_trans _ _ _ Hs Hs1).
  assert (Hr01 := read_only_trans _ _ _ Hr Hr1).
  rewrite Hh in Hh1.
  rewrite (bind_returns _ _ _ _ _ (ensure_connection_run _ Hon)).
  rewrite (bind_returns _ _ _ _ _ E).
  destruct (equals cur (carry cur it)) eqn:Eq; simpl.
  { exists w1. destruct Hs01 as (?&?&?&?&?). split_and!; try done.
    left. by split_and!. }
  assert (Hl1 : heap w1 !! l = Some (carry cur it))
    by (rewrite Hh1; apply lookup_insert_eq).
  rewrite (bind_returns _ _ _ _ _ (get_obj_run _ _ _ Hl1)).
  assert (Hsel1 : select_item w1 i = Some cur)
    by (by rewrite (select_item_unchanged _ _ _ Hs01)).
  destruct (select_item_row _ _ _ Hsel) as (old & cname & Hold & Hcat & Hcur).
  set (reread := if negb (truthy_bytes (image (carry cur it)))
                 then _ else _).
  assert (exists w2, reread w1 = (Returns tt, w2) /\
            heap w2 = heap w1 /\ store_unchanged w1 w2 /\
            connection w2 = Some true) as (w2 & E2 & Hh2 & Hs2 & Hc2).
  { subst reread.
    destruct (truthy_bytes (image (carry cur it))) eqn:Et; simpl.
    - exists w1. unfold store_unchanged. by split_and!.
    - rewrite (bind_returns _ _ _ _ _ (read_menu_item_run _ i Hc1)), Hsel1.
      eexists. split; [reflexivity|]. simpl.
      rewrite copy_image_carry by done. rewrite insert_id by done.
      unfold store_unchanged. by split_and!. }
  rewrite (bind_returns _ _ _ _ _ E2).
  assert (Hl2 : heap w2 !! l = Some (carry cur it)) by (by rewrite Hh2).
  rewrite (bind_returns _ _ _ _ _ (get_obj_run _ _ _ Hl2)).
  assert (Hs02 := store_unchanged_trans _ _ _ Hs01 Hs2).
  destruct Hs02 as (Hm2 & Hcat2 & Ha2 & Hf2 & Hre2).
  unfold mbind, M_bind, execute_update. rewrite Hm2, Hold.
  rewrite (row_of_item_categories w w2) by done.
  destruct (row_of_item w (carry cur it)) as [new|] eqn:Enew; simpl.
  - exists (log EvCommit
              (log EvUpdate
                 (with_menu_items (<[i:=new]> (menu_items w)) w2))).
    simpl. split_and!; try congruence.
    right; left. split; [done|]. exists new. split_and!; try done.
    unfold mret, M_ret. rewrite Hf2. destruct (found_rows w); [done|].
    destruct (row_eqb old new) eqn:Er; [|done].
    pose proof (row_eqb_equals w i old cname _ _ Enew Er) as Hx.
    rewrite <- Hcur in Hx. congruence.
  - exists (log EvRollback (log EvUpdate w2)).
    simpl. split_and!; try congruence.
    right; right. split_and!; try done.
Qed.

End Running.

(** ** The foreign key holds in every state the manager reaches *)

Section Invariant.

Implicit Types (w : World) (l : loc) (it : MenuItem) (i : Z).

Lemma preserves_bind {A B} P (m : M A) (k : A -> M B) :
  preserves P m -> (forall a, preserves P (k a)) -> preserves P (m ≫= k).
Proof.
  intros Hm Hk w Hw. unfold mbind, M_bind.
  specialize (Hm w Hw). destruct (m w) as [[a|e] w']; simpl in *; [|done].
  by apply Hk.
Qed.

Lemma preserves_ret {A} P (a : A) : preserves P (mret a).
Proof. by intros w Hw. Qed.

Lemma preserves_raise {A} P e : preserves P (@raise A e).
Proof. by intros w Hw. Qed.

Lemma fk_get_obj l : preserves fk_integrity (get_obj l).
Proof. intros w Hw. unfold get_obj. by destruct (heap w !! l). Qed.

Lemma fk_set_obj l it : preserves fk_integrity (set_obj l it).
Proof. by intros w Hw. Qed.

Lemma fk_emit e : preserves fk_integrity (emit e).
Proof. by intros w Hw. Qed.

Lemma fk_ensure_connection : preserves fk_integrity ensure_connection.
Proof.
  intros w Hw. unfold ensure_connection, connect.
  destruct (connection w) as [[]|]; try done; by destruct (reachable w).
Qed.

Lemma fk_execute_select i : preserves fk_integrity (execute_select i).
Proof. by intros w Hw. Qed.

Lemma fk_execute_search t : preserves fk_integrity (execute_search t).
Proof. by intros w Hw. Qed.

Lemma fk_insert_row w i new it :
  fk_integrity w -> row_of_item w it = Some new ->
  forall j r, <[i := new]> (menu_items w) !! j = Some r ->
              is_Some (categories w !! row_category_id r).
Proof.
  intros Hw Hnew j r. rewrite lookup_insert.
  destruct (decide (i = j)) as [->|Hne]; [|apply Hw].
  intros [= <-]. by apply row_of_item_Some in Hnew as (c & _ & Hc & _ & ->).
Qed.

Lemma fk_execute_update it i : preserves fk_integrity (execute_update it i).
Proof.
  intros w Hw. unfold execute_update.
  destruct (menu_items w !! i) as [old|]; [|done].
  destruct (row_of_item w it) as [new|] eqn:Hnew; [|done].
  intros j r Hj. by apply (fk_insert_row w i new it Hw Hnew j r).
Qed.

Lemma fk_execute_insert it : preserves fk_integrity (execute_insert it).
Proof.
  intros w Hw. unfold execute_insert.
  destruct (row_of_item w it) as [new|] eqn:Hnew; [|done].
  destruct (menu_items w !! auto_increment w); [done|].
  intros j r Hj.
  by apply (fk_insert_row w (auto_increment w) new it Hw Hnew j r).
Qed.

Lemma fk_execute_delete i : preserves fk_integrity (execute_delete i).
Proof.
  intros w Hw. unfold execute_delete.
  destruct (menu_items w !! i) as [old|] eqn:Hold; [|done].
  intros j r Hj. simpl in Hj. rewrite lookup_delete in Hj.
  destruct (decide (i = j)); [done|by apply (Hw j r)].
Qed.

Create HintDb fk.

#[local] Hint Resolve preserves_ret preserves_raise fk_get_obj fk_set_obj
  fk_emit fk_ensure_connection fk_execute_select fk_execute_search
  fk_execute_update fk_execute_insert fk_execute_delete : fk.

Ltac fk_step :=
  repeat first
    [ apply preserves_bind; [|intros ?]
    | match goal with
      | |- preserves _ (match ?x with _ => _ end) => destruct x
      | |- preserves _ (if ?b then _ else _) => destruct b
      end
    | solve [auto with fk] ].

Lemma fk_read_menu_item i : preserves fk_integrity (read_menu_item i).
Proof. unfold read_menu_item. fk_step. Qed.

#[local] Hint Resolve fk_read_menu_item : fk.

Lemma fk_has_changes i l : preserves fk_integrity (has_changes i l).
Proof. unfold has_changes. fk_step. Qed.

#[local] Hint Resolve fk_has_changes : fk.

Lemma fk_create_menu_item l : preserves fk_integrity (create_menu_item l).
Proof. unfold create_menu_item. fk_step. Qed.

Lemma fk_update_menu_item l : preserves fk_integrity (update_menu_item l).
Proof. unfold update_menu_item. fk_step. Qed.

Lemma fk_delete_menu_item item_id :
  preserves fk_integrity (delete_menu_item item_id).
Proof. unfold delete_menu_item. fk_step. Qed.

Lemma fk_search_menu_items t : preserves fk_integrity (search_menu_items t).
Proof. unfold search_menu_items. fk_step. Qed.

(** Under the invariant, a stored row is a row [read_menu_item] loads. *)
Lemma select_item_stored w i old :
  fk_integrity w -> menu_items w !! i = Some old ->
  exists cname, select_item w i = Some (hydrate i old cname).
Proof.
  intros Hw Hold. destruct (Hw i old Hold) as [cname Hc].
  exists cname. by apply select_item_hydrate.
Qed.

End Invariant.

(** ** The persistence manager *)

Section Manager.

Implicit Types (w : World) (l : loc) (it cur : MenuItem) (i : Z).

(** C2. An item with a set id whose stored row, as [read_menu_item]
    loads it, equals the item once the stored image and image name are
    carried onto it: [update_menu_item] returns [False], both tables are
    as before, and nothing that reached the store was a write. *)
Theorem update_no_change_no_write w l it i cur :
  online w = true ->
  heap w !! l = Some it ->
  id it = Some i -> i <> 0 ->
  select_item w i = Some cur ->
  equals cur (carry cur it) = true ->
  exists w',
    update_menu_item l w = (Returns false, w') /\
    menu_items w' = menu_items w /\
    store_unchanged w w' /\ read_only w w'.
Proof.
  intros Hon Hl Hid Hi Hsel Heq.
  destruct (update_run _ _ _ _ _ Hon Hl Hid Hi Hsel)
    as (w' & _ & _ & _ & _ & [(_ & E & Hs & Hr)|[(Hne & _)|(Hne & _)]]);
    try congruence.
  exists w'. split_and!; try done. by destruct Hs.
Qed.

Lemma update_no_change_no_write_witness :
  let w := holding Cafe.here (without_image Cafe.tea) Cafe.shop in
  exists w',
    update_menu_item Cafe.here w = (Returns false, w') /\
    menu_items w' = menu_items w /\
    store_unchanged w w' /\ read_only w w'.
Proof.
  apply (update_no_change_no_write
           _ Cafe.here (without_image Cafe.tea) 1 Cafe.tea);
    try reflexivity; lia.
Defined.

(** C3. An update whose item has no image, for an id whose row is
    stored (as [read_menu_item] loads it; under the foreign key that is
    any stored row, [select_item_stored]): whatever the update does, the
    image and image name stored under that id after it are the ones
    stored before it. *)
Theorem update_keeps_stored_image w l it i cur :
  heap w !! l = Some it ->
  id it = Some i ->
  select_item w i = Some cur ->
  truthy_bytes (image it) = false ->
  stored_image_pair (update_menu_item l w).2 i = stored_image_pair w i.
Proof.
  intros Hl Hid Hsel Habs.
  destruct (decide (i = 0)) as [->|Hi].
  { rewrite (update_menu_item_unset _ _ _ Hl); [done|by rewrite Hid]. }
  destruct (online w) eqn:Hon.
  2: { by rewrite (update_menu_item_offline _ _ _ _ Hl Hid Hi Hon). }
  destruct (update_run _ _ _ _ _ Hon Hl Hid Hi Hsel)
    as (w' & _ & _ & _ & _ &
        [(_ & E & Hs & _)|[(_ & new & Hnew & E & Hm)|(_ & _ & E & Hs)]]);
    rewrite E; simpl; unfold stored_image_pair.
  - destruct Hs as (-> & _). done.
  - rewrite Hm, lookup_insert_eq.
    destruct (select_item_row _ _ _ Hsel) as (old & cname & -> & _ & ->).
    apply row_of_item_Some in Hnew as (c & _ & _ & _ & ->).
    by rewrite carry_absent.
  - destruct Hs as (-> & _). done.
Qed.

Lemma update_keeps_stored_image_witness :
  (update_menu_item Cafe.here
     (holding Cafe.here Cafe.tea_edit Cafe.shop)).1 = Returns true /\
  stored_image_pair
    (update_menu_item Cafe.here
       (holding Cafe.here Cafe.tea_edit Cafe.shop)).2 1
  = stored_image_pair (holding Cafe.here Cafe.tea_edit Cafe.shop) 1.
Proof.
  split; [reflexivity|].
  apply (update_keeps_stored_image _ Cafe.here Cafe.tea_edit 1 Cafe.tea);
    reflexivity.
Defined.

(** C5. [create_menu_item] on an item that is not complete,
    [update_menu_item] on an item whose id is unset or zero, and
    [delete_menu_item] on an unset or zero id raise [ValueError] and leave
    the whole world as it was: no connection is opened, nothing reaches
    the store, no table changes. *)
Theorem validation_before_storage w :
  (forall l it,
      heap w !! l = Some it -> is_complete it = false ->
      create_menu_item l w =
        (Raises (ValueError "All fields are required to create a menu item"),
         w)) /\
  (forall l it,
      heap w !! l = Some it -> truthy_int (id it) = false ->
      update_menu_item l w =
        (Raises (ValueError "Item ID is required for update"), w)) /\
  (forall item_id,
      truthy_int item_id = false ->
      delete_menu_item item_id w =
        (Raises (ValueError "Item ID is required for deletion"), w)).
Proof.
  split_and!.
  - intros l it Hl Hc. by apply (create_menu_item_incomplete _ _ it).
  - intros l it Hl Hid. by apply (update_menu_item_unset _ _ it).
  - intros item_id Hid. unfold delete_menu_item.
    by destruct item_id as [[|p|p]|].
Qed.

Lemma validation_before_storage_witness :
  let w := holding Cafe.here Cafe.tea_empty Cafe.shop in
  let w0 := holding Cafe.here Cafe.tea_new Cafe.shop in
  create_menu_item Cafe.here w =
    (Raises (ValueError "All fields are required to create a menu item"), w)
  /\ update_menu_item Cafe.here w0 =
       (Raises (ValueError "Item ID is required for update"), w0)
  /\ delete_menu_item (Some 0) w =
       (Raises (ValueError "Item ID is required for deletion"), w).
Proof.
  intros w w0. split_and!.
  - apply (proj1 (validation_before_storage w) Cafe.here Cafe.tea_empty);
      reflexivity.
  - apply (proj1 (proj2 (validation_before_storage w0))
             Cafe.here Cafe.tea_new); reflexivity.
  - apply (proj2 (proj2 (validation_before_storage w)) (Some 0)).
    reflexivity.
Defined.

(** C8. An item with a set id whose row is stored: once a first
    [update_menu_item] has returned, with [True] or with [False], a second
    one returns [False], both on the same object (as the first call left
    it) and on an object holding the same data as the first call was
    given. *)
Theorem update_twice_no_change w l it i cur b w1 :
  heap w !! l = Some it ->
  id it = Some i ->
  select_item w i = Some cur ->
  update_menu_item l w = (Returns b, w1) ->
  (update_menu_item l w1).1 = Returns false /\
  (update_menu_item l (holding l it w1)).1 = Returns false.
Proof.
  intros Hl Hid Hsel Hrun.
  assert (Hi : i <> 0).
  { intros ->. rewrite (update_menu_item_unset _ _ _ Hl) in Hrun; [done|].
    by rewrite Hid. }
  assert (Hon : online w = true).
  { destruct (online w) eqn:Hon; [done|].
    by rewrite (update_menu_item_offline _ _ _ _ Hl Hid Hi Hon) in Hrun. }
  destruct (update_run _ _ _ _ _ Hon Hl Hid Hi Hsel)
    as (w' & Hh & Hc & Hcat & _ &
        [(Heq & E & Hs & _)|[(_ & new & Hnew & E & Hm)|(_ & _ & E & _)]]);
    rewrite E in Hrun; [| |done]; injection Hrun as <- <-.
  - (* nothing was written: the row still equals the carried item *)
    assert (Hsel' : select_item w' i = Some cur)
      by (by rewrite (select_item_unchanged _ _ _ Hs)).
    split.
    + assert (Hl' : heap w' !! l = Some (carry cur it))
        by (rewrite Hh; apply lookup_insert_eq).
      destruct (update_run _ _ _ _ _ (connected_online _ Hc) Hl'
                  (eq_trans (id_carry _ _) Hid) Hi Hsel')
        as (w2 & _ & _ & _ & _ & [(_ & -> & _)|[(Hne & _)|(Hne & _)]]);
        [done| |]; rewrite carry_carry in Hne; congruence.
    + assert (Hl' : heap (holding l it w') !! l = Some it)
        by apply lookup_insert_eq.
      destruct (update_run (holding l it w') _ _ _ _
                  (connected_online _ Hc) Hl' Hid Hi Hsel')
        as (w2 & _ & _ & _ & _ & [(_ & -> & _)|[(Hne & _)|(Hne & _)]]);
        [done| |]; congruence.
  - (* the carried item was written: it reads back equal to itself *)
    destruct (row_of_item_Some _ _ _ Hnew) as (c & _ & [cname Hcn] & _ & Hrow).
    assert (Hsel' : select_item w' i = Some (hydrate i new cname)).
    { apply select_item_hydrate.
      - rewrite Hm. apply lookup_insert_eq.
      - rewrite Hcat. by rewrite Hrow. }
    split.
    + assert (Hl' : heap w' !! l = Some (carry cur it))
        by (rewrite Hh; apply lookup_insert_eq).
      destruct (update_run _ _ _ _ _ (connected_online _ Hc) Hl'
                  (eq_trans (id_carry _ _) Hid) Hi Hsel')
        as (w2 & _ & _ & _ & _ & [(_ & -> & _)|[(Hne & _)|(Hne & _)]]);
        [done| |];
        rewrite (written_row_carry _ _ _ _ _ Hnew),
          (written_row_equals _ _ _ _ _ Hnew) in Hne; done.
    + assert (Hl' : heap (holding l it w') !! l = Some it)
        by apply lookup_insert_eq.
      destruct (update_run (holding l it w') _ _ _ _
                  (connected_online _ Hc) Hl' Hid Hi Hsel')
        as (w2 & _ & _ & _ & _ & [(_ & -> & _)|[(Hne & _)|(Hne & _)]]);
        [done| |];
        rewrite (written_row_carry_fresh _ _ _ _ _ _ Hnew),
          (written_row_equals _ _ _ _ _ Hnew) in Hne; done.
Qed.

Lemma update_twice_no_change_witness :
  let w := holding Cafe.here Cafe.tea_edit Cafe.shop in
  (update_menu_item Cafe.here w).1 = Returns true /\
  (update_menu_item Cafe.here (update_menu_item Cafe.here w).2).1
    = Returns false /\
  (update_menu_item Cafe.here
     (holding Cafe.here Cafe.tea_edit (update_menu_item Cafe.here w).2)).1
    = Returns false.
Proof.
  intros w. split; [reflexivity|].
  apply (update_twice_no_change w Cafe.here Cafe.tea_edit 1 Cafe.tea true);
    reflexivity.
Defined.

(** C9. [has_changes] writes to the caller's object: when the item's
    image is absent and a row is stored under the id, the object's image
    and image name are, after the call, those of the stored row. The same
    holds after [update_menu_item], whatever it returns or raises, and in
    particular when it returns [False]. *)
Theorem has_changes_overwrites_candidate w l it i old cname :
  online w = true ->
  heap w !! l = Some it ->
  menu_items w !! i = Some old ->
  categories w !! row_category_id old = Some cname ->
  truthy_bytes (image it) = false ->
  let it' :=
    mkMenuItem (id it) (name it) (description it) (price it)
               (category_id it) (row_image old) (row_image_name old)
               (category_name it) in
  heap (has_changes i l w).2 !! l = Some it' /\
  (id it = Some i -> i <> 0 ->
   heap (update_menu_item l w).2 !! l = Some it' /\
   (equals (hydrate i old cname) it' = true ->
    (update_menu_item l w).1 = Returns false)).
Proof.
  intros Hon Hl Hold Hcat Habs it'.
  pose proof (select_item_hydrate _ _ _ _ Hold Hcat) as Hsel.
  assert (Hit : carry (hydrate i old cname) it = it')
    by (by rewrite carry_absent).
  split.
  - rewrite (has_changes_run _ _ _ _ _ Hon Hl Hsel), Hit. simpl.
    apply lookup_insert_eq.
  - intros Hid Hi.
    destruct (update_run _ _ _ _ _ Hon Hl Hid Hi Hsel)
      as (w' & Hh & _ & _ & _ &
          [(Heq & E & _)|[(Hne & new & _ & E & _)|(Hne & _ & E & _)]]);
      rewrite E; simpl; rewrite Hh, Hit, lookup_insert_eq;
      (split; [done|]); rewrite ?Hit in *; congruence.
Qed.

Lemma has_changes_overwrites_candidate_witness :
  let w := holding Cafe.here (without_image Cafe.tea) Cafe.shop in
  heap (has_changes 1 Cafe.here w).2 !! Cafe.here = Some Cafe.tea /\
  heap (update_menu_item Cafe.here w).2 !! Cafe.here = Some Cafe.tea /\
  (update_menu_item Cafe.here w).1 = Returns false.
Proof.
  intros w.
  destruct (has_changes_overwrites_candidate
              w Cafe.here (without_image Cafe.tea) 1 Cafe.tea_row "Drinks"
              eq_refl eq_refl eq_refl eq_refl eq_refl) as (H1 & H2).
  destruct (H2 eq_refl ltac:(lia)) as (H3 & H4).
  split_and!; [exact H1 | exact H3 | exact (H4 eq_refl)].
Defined.

(** *** An image of no bytes *)

Lemma holding_live_holding l x y e w :
  holding l x (log e (live (holding l y w))) = holding l x (log e (live w)).
Proof.
  destruct w as [h c r f mi cat ai tr].
  unfold holding, live; destruct c as [[]|]; simpl;
    by rewrite insert_insert_eq.
Qed.

Lemma has_changes_holding w l x i cur :
  online w = true -> select_item w i = Some cur ->
  has_changes i l (holding l x w) =
    (Returns (negb (equals cur (carry cur x))),
     holding l (carry cur x) (log EvSelect (live w))).
Proof.
  intros Hon Hsel.
  rewrite (has_changes_run (holding l x w) l x i cur);
    [by rewrite holding_live_holding | done | apply lookup_insert_eq | done].
Qed.

Lemma update_menu_item_holding w l x i cur :
  online w = true -> select_item w i = Some cur ->
  id x = Some i -> i <> 0 ->
  update_menu_item l (holding l x w) =
    (changed ← has_changes i l;
     if negb changed then mret false
     else
       it1 ← get_obj l;
       _ ← (if negb (truthy_bytes (image it1))
            then
              current_item ← read_menu_item i;
              match current_item with
              | Some cur => set_obj l (copy_image cur it1)
              | None => mret tt
              end
            else mret tt);
       it2 ← get_obj l;
       r ← execute_update it2 i;
       match r with
       | Some rowcount => _ ← emit EvCommit; mret (0 <? rowcount)
       | None =>
           _ ← emit EvRollback;
           raise (Exception "Error updating menu item")
       end) (holding l x (live w)).
Proof.
  intros Hon Hsel Hid Hi.
  rewrite (update_menu_item_guard (holding l x w) l x i);
    [| apply lookup_insert_eq | done | done].
  rewrite (bind_returns _ _ _ _ _
             (ensure_connection_run (holding l x w) Hon)).
  f_equal. destruct w as [h c r f mi cat ai tr].
  unfold holding, live. by destruct c as [[]|].
Qed.

(** C10, as the code has it. An image of no bytes is an absent image
    for the checks that test truth: [is_complete] is false for such an
    item, so [create_menu_item] raises [ValueError]; and, where a row is
    stored under the id, [has_changes] and [update_menu_item] run on it
    exactly as on the same item with [image = None], the stored image
    being copied onto it. [equals] tests for [None] instead: the item
    never equals the same item with [image = None]. *)
Theorem empty_image_as_absent w l it :
  image it = Some [] ->
  is_complete it = false /\
  create_menu_item l (holding l it w) =
    (Raises (ValueError "All fields are required to create a menu item"),
     holding l it w) /\
  (forall i cur,
      online w = true -> select_item w i = Some cur ->
      has_changes i l (holding l it w) =
        has_changes i l (holding l (without_image it) w) /\
      heap (has_changes i l (holding l it w)).2 !! l
        = Some (copy_image cur it) /\
      (id it = Some i -> i <> 0 ->
       update_menu_item l (holding l it w) =
         update_menu_item l (holding l (without_image it) w))) /\
  equals it (without_image it) = false.
Proof.
  intros Hempty.
  assert (Hc : is_complete it = false).
  { unfold is_complete. rewrite Hempty. simpl. by rewrite !andb_false_r. }
  assert (Habs : truthy_bytes (image it) = false) by (by rewrite Hempty).
  split_and!.
  - done.
  - apply (create_menu_item_incomplete _ l it);
      [apply lookup_insert_eq | done].
  - intros i cur Hon Hsel.
    assert (Hcarry : carry cur (without_image it) = carry cur it)
      by (by rewrite !carry_absent).
    assert (Hhc : has_changes i l (holding l it w) =
                  has_changes i l (holding l (without_image it) w))
      by (rewrite (has_changes_holding _ l it _ _ Hon Hsel),
            (has_changes_holding _ l (without_image it) _ _ Hon Hsel);
          by rewrite Hcarry).
    split_and!.
    + done.
    + rewrite (has_changes_holding _ _ _ _ _ Hon Hsel). simpl.
      rewrite lookup_insert_eq. by rewrite carry_absent.
    + intros Hid Hi.
      rewrite (update_menu_item_holding _ l it _ _ Hon Hsel) by done.
      rewrite (update_menu_item_holding _ l (without_image it) _ _ Hon Hsel)
        by done.
      assert (Hlive : online (live w) = true).
      { apply connected_online. by apply live_spec. }
      assert (Hsel' : select_item (live w) i = Some cur).
      { rewrite (select_item_unchanged w); [done|by apply live_spec]. }
      rewrite (bind_returns _ _ _ _ _
                 (has_changes_holding _ l it _ _ Hlive Hsel')).
      rewrite (bind_returns _ _ _ _ _
                 (has_changes_holding _ l (without_image it) _ _
                    Hlive Hsel')).
      by rewrite Hcarry.
  - unfold equals. rewrite Hempty. simpl.
    by destruct (negb _).
Qed.

Lemma empty_image_as_absent_witness :
  is_complete Cafe.tea_empty = false /\
  has_changes 1 Cafe.here (holding Cafe.here Cafe.tea_empty Cafe.shop) =
    has_changes 1 Cafe.here
      (holding Cafe.here (without_image Cafe.tea_empty) Cafe.shop) /\
  equals Cafe.tea_empty (without_image Cafe.tea_empty) = false.
Proof.
  destruct (empty_image_as_absent Cafe.shop Cafe.here Cafe.tea_empty
              eq_refl) as (H1 & _ & H3 & H4).
  destruct (H3 1 Cafe.tea eq_refl eq_refl) as (H5 & _).
  split_and!; [exact H1 | exact H5 | exact H4].
Defined.

(** C10 as stated fails: [equals] tells an image of no bytes from an
    absent one. Two items without image are equal; give one of them an
    image of no bytes and they are not. *)
Lemma equals_tells_empty_from_absent :
  equals (without_image Cafe.tea_empty) (without_image Cafe.tea_empty) = true
  /\ equals Cafe.tea_empty (without_image Cafe.tea_empty) = false.
Proof. split; reflexivity. Qed.

End Manager.

(** ** Search *)

Section Searching.

Implicit Types (s t u : string) (it : MenuItem) (w : World).

(** *** The collation is a total preorder *)

Lemma collate_antisym s t : Sql.collate t s = CompOpp (Sql.collate s t).
Proof.
  revert t. induction s as [|a s IH]; intros [|b t]; simpl; try done.
  rewrite (N.compare_antisym (Sql.weight a) (Sql.weight b)).
  destruct (Sql.weight a ?= Sql.weight b)%N; simpl; auto.
Qed.

Lemma collate_le_total s t : Sql.collate_le s t \/ Sql.collate_le t s.
Proof.
  unfold Sql.collate_le. rewrite (collate_antisym s t).
  destruct (Sql.collate s t); simpl; auto.
Qed.

Lemma collate_le_trans s t u :
  Sql.collate_le s t -> Sql.collate_le t u -> Sql.collate_le s u.
Proof.
  unfold Sql.collate_le. revert t u.
  induction s as [|a s IH]; intros [|b t] [|c u]; simpl; try done.
  destruct (N.compare_spec (Sql.weight a) (Sql.weight b)) as [Hab|Hab|Hab];
    destruct (N.compare_spec (Sql.weight b) (Sql.weight c)) as [Hbc|Hbc|Hbc];
    try done.
  - rewrite Hab, Hbc, N.compare_refl. apply IH.
  - rewrite Hab. apply N.compare_lt_iff in Hbc. by rewrite Hbc.
  - rewrite <- Hbc. apply N.compare_lt_iff in Hab. by rewrite Hab.
  - assert (H : (Sql.weight a < Sql.weight c)%N) by lia.
    apply N.compare_lt_iff in H. by rewrite H.
Qed.

#[local] Instance order_total search_term : Total (Search.order search_term).
Proof.
  intros a b. unfold Search.order.
  destruct (Z.lt_trichotomy (Search.rank search_term a)
                            (Search.rank search_term b)) as [H|[H|H]];
    [by left; left | | by right; left].
  destruct (collate_le_total (name a) (name b));
    [left|right]; right; by split.
Qed.

#[local] Instance order_trans search_term :
  Transitive (Search.order search_term).
Proof.
  intros a b c [H1|[H1 L1]] [H2|[H2 L2]]; unfold Search.order.
  - left. lia.
  - left. lia.
  - left. lia.
  - right. split; [lia|]. by eapply collate_le_trans.
Qed.

(** *** The result of the query *)

Lemma select_sorted search_term w :
  StronglySorted (Search.order search_term) (Search.select search_term w).
Proof. apply (StronglySorted_merge_sort _). Qed.

Lemma select_elem_of_joined search_term w it :
  it ∈ Search.select search_term w <->
  it ∈ Search.joined w /\ Search.matches search_term it = true.
Proof.
  unfold Search.select. rewrite merge_sort_Permutation.
  rewrite elem_of_remove_dups, list_elem_of_filter. tauto.
Qed.

(** The rows of the join: one per stored item whose category exists. *)
Lemma joined_elem_of w it :
  it ∈ Search.joined w <->
  exists i, select_item w i = Some it.
Proof.
  unfold Search.joined. rewrite list_elem_of_omap. split.
  - intros ([i r] & Hin & H). apply elem_of_map_to_list in Hin.
    exists i. unfold select_item. rewrite Hin. exact H.
  - intros (i & H). unfold select_item in H.
    apply bind_Some in H as (r & Hr & H).
    exists (i, r). split; [by apply elem_of_map_to_list|done].
Qed.


(** *** [LIKE] and substrings *)

Lemma like_percent_only s : Sql.like "%" s = true.
Proof. induction s as [|c s IH]; [done|]. simpl in *. by rewrite IH. Qed.


Lemma like_percent_cons pat s :
  Sql.like (String "%" pat) s =
  Sql.like pat s ||
  match s with
  | EmptyString => false
  | String _ s' => Sql.like (String "%" pat) s'
  end.
Proof. by destruct s. Qed.


(** The rows returned: the stored items [read_menu_item] can load and
    that match. *)
Lemma select_elem_of search_term w it :
  it ∈ Search.select search_term w <->
  (exists i, select_item w i = Some it) /\
  Search.matches search_term it = true.
Proof. by rewrite select_elem_of_joined, joined_elem_of. Qed.

(** *** No id twice *)

Lemma joined_ids_NoDup w : NoDup (id <$> Search.joined w).
Proof.
  unfold Search.joined.
  pose proof (NoDup_fst_map_to_list (menu_items w)) as Hnd.
  induction (map_to_list (menu_items w)) as [|[i r] rows IH]; simpl.
  - constructor.
  - apply NoDup_cons in Hnd as [Hi Hnd]. specialize (IH Hnd).
    destruct (categories w !! row_category_id r) as [cname|]; simpl;
      [|done].
    apply NoDup_cons. split; [|done].
    intros Hin. apply Hi.
    apply list_elem_of_fmap in Hin as (it & Hid & Hin).
    apply list_elem_of_omap in Hin as ([j r'] & Hj & Hit).
    apply bind_Some in Hit as (cn & _ & [= <-]). simpl in *.
    injection Hid as ->. apply list_elem_of_fmap. by exists (j, r').
Qed.








End Searching.

(** ** More runs of the methods *)

Section MoreRuns.

Implicit Types (w : World) (l : loc) (it cur : MenuItem) (i : Z).

Lemma live_idem w : live (live w) = live w.
Proof.
  destruct w as [h c r f mi cat ai tr]. unfold live.
  by destruct c as [[]|].
Qed.

Lemma read_menu_item_online w i :
  online w = true ->
  read_menu_item i w = (Returns (select_item w i), log EvSelect (live w)).
Proof.
  intros Hon. unfold read_menu_item.
  rewrite (bind_returns _ _ _ _ _ (ensure_connection_run w Hon)).
  unfold execute_select. f_equal. f_equal.
  apply select_item_unchanged. by apply live_spec.
Qed.

Lemma create_menu_item_offline w l it :
  heap w !! l = Some it -> is_complete it = true -> online w = false ->
  create_menu_item l w =
    (Raises (Exception "Error connecting to database"), w).
Proof.
  intros Hl Hc Hoff. unfold create_menu_item.
  rewrite (bind_returns _ _ _ _ _ (get_obj_run _ _ _ Hl)), Hc. simpl.
  by rewrite (bind_raises _ _ _ _ _ (ensure_connection_offline w Hoff)).
Qed.

Lemma create_menu_item_no_object w l :
  heap w !! l = None -> create_menu_item l w = (Raises AttributeError, w).
Proof.
  intros Hl. unfold create_menu_item, mbind, M_bind, get_obj. by rewrite Hl.
Qed.

(** The two ways a create of a complete item goes once the store is
    reached: the row is inserted under the next id, or the store refuses. *)
Lemma create_run w l it :
  heap w !! l = Some it -> is_complete it = true -> online w = true ->
  exists w',
    heap w' = heap w /\ categories w' = categories w /\
    connection w' = Some true /\
    ((exists new,
        row_of_item w it = Some new /\
        menu_items w !! auto_increment w = None /\
        create_menu_item l w = (Returns (auto_increment w), w') /\
        menu_items w' = <[auto_increment w := new]> (menu_items w) /\
        auto_increment w' = auto_increment w + 1)
     \/ ((row_of_item w it = None \/
          is_Some (menu_items w !! auto_increment w)) /\
         create_menu_item l w =
           (Raises (Exception "Error creating menu item"), w') /\
         store_unchanged w w')).
Proof.
  intros Hl Hc Hon. unfold create_menu_item.
  rewrite (bind_returns _ _ _ _ _ (get_obj_run _ _ _ Hl)), Hc. simpl.
  rewrite (bind_returns _ _ _ _ _ (ensure_connection_run w Hon)).
  destruct (live_spec w Hon) as (Hh & (Hm & Hcat & Ha & Hf & Hr) & _ & Hcon).
  unfold mbind, M_bind, execute_insert.
  rewrite (row_of_item_categories w (live w)) by done. rewrite Ha, Hm.
  destruct (row_of_item w it) as [new|] eqn:Hnew.
  - destruct (menu_items w !! auto_increment w) as [r|] eqn:Hfree; simpl.
    + exists (log EvRollback (log EvInsert (live w))). simpl.
      split_and!; try done. right. unfold store_unchanged. simpl.
      split_and!; try done. right. by exists r.
    + eexists. simpl. split_and!; [| | |left; exists new; split_and!;
        [done|done|reflexivity| |]]; simpl; try done.
  - simpl. exists (log EvRollback (log EvInsert (live w))). simpl.
    split_and!; try done. right. unfold store_unchanged. simpl.
    split_and!; try done. by left.
Qed.

(** What a create that returned has done. *)
Lemma create_returned w l it n w1 :
  heap w !! l = Some it -> create_menu_item l w = (Returns n, w1) ->
  n = auto_increment w /\
  exists new,
    row_of_item w it = Some new /\ menu_items w !! n = None /\
    menu_items w1 = <[n := new]> (menu_items w) /\
    categories w1 = categories w /\ heap w1 = heap w /\
    connection w1 = Some true.
Proof.
  intros Hl Hrun.
  destruct (is_complete it) eqn:Hc.
  2: { by rewrite (create_menu_item_incomplete _ _ _ Hl Hc) in Hrun. }
  destruct (online w) eqn:Hon.
  2: { by rewrite (create_menu_item_offline _ _ _ Hl Hc Hon) in Hrun. }
  destruct (create_run _ _ _ Hl Hc Hon)
    as (w' & Hh & Hcat & Hcon &
        [(new & Hnew & Hfree & E & Hm & _)|(_ & E & _)]);
    rewrite E in Hrun; [|done]. injection Hrun as <- <-.
  split; [done|]. by exists new.
Qed.

Lemma delete_menu_item_offline w i :
  i <> 0 -> online w = false ->
  delete_menu_item (Some i) w =
    (Raises (Exception "Error connecting to database"), w).
Proof.
  intros Hi Hoff. unfold delete_menu_item.
  destruct i as [|p|p]; [done| |];
    by rewrite (bind_raises _ _ _ _ _ (ensure_connection_offline w Hoff)).
Qed.

Lemma delete_run w i :
  online w = true -> i <> 0 ->
  exists w',
    delete_menu_item (Some i) w =
      (Returns (bool_decide (is_Some (menu_items w !! i))), w') /\
    menu_items w' = delete i (menu_items w) /\
    categories w' = categories w /\ heap w' = heap w /\
    auto_increment w' = auto_increment w /\ connection w' = Some true.
Proof.
  intros Hon Hi.
  destruct (live_spec w Hon) as (Hh & (Hm & Hcat & Ha & Hf & Hr) & _ & Hcon).
  assert (E : delete_menu_item (Some i) w =
              (rowcount ← execute_delete i;
               _ ← emit EvCommit; mret (0 <? rowcount)) (live w)).
  { unfold delete_menu_item. destruct i as [|p|p]; [done| |];
      by rewrite (bind_returns _ _ _ _ _ (ensure_connection_run w Hon)). }
  rewrite E. unfold mbind, M_bind, execute_delete. rewrite Hm.
  destruct (menu_items w !! i) as [old|] eqn:Hold; simpl.
  - eexists. split; [reflexivity|]. simpl. by split_and!.
  - eexists. split; [reflexivity|]. simpl. split_and!; try done.
    by rewrite delete_id.
Qed.

Lemma has_changes_missing w l i :
  online w = true -> select_item w i = None ->
  has_changes i l w = (Returns true, log EvSelect (live w)).
Proof.
  intros Hon Hsel. unfold has_changes.
  destruct (live_spec w Hon) as (Hh & Hs & Hr & Hc).
  rewrite (bind_returns _ _ _ _ _ (ensure_connection_run w Hon)).
  rewrite (bind_returns _ _ _ _ _ (read_menu_item_run _ i Hc)).
  by rewrite (select_item_unchanged _ _ _ Hs), Hsel.
Qed.

(** An update for an id under which [read_menu_item] finds nothing: the
    item is written as it is, over whatever row has the id. *)
Lemma update_run_missing w l it i :
  online w = true -> heap w !! l = Some it -> id it = Some i -> i <> 0 ->
  select_item w i = None ->
  exists w',
    heap w' = heap w /\ connection w' = Some true /\
    categories w' = categories w /\
    ((menu_items w !! i = None /\
      update_menu_item l w = (Returns false, w') /\ store_unchanged w w')
     \/ (exists old new,
           menu_items w !! i = Some old /\ row_of_item w it = Some new /\
           update_menu_item l w =
             (Returns (if found_rows w then true
                       else negb (row_eqb old new)), w') /\
           menu_items w' = <[i := new]> (menu_items w))
     \/ (is_Some (menu_items w !! i) /\ row_of_item w it = None /\
         update_menu_item l w =
           (Raises (Exception "Error updating menu item"), w') /\
         store_unchanged w w')).
Proof.
  intros Hon Hl Hid Hi Hsel.
  rewrite (update_menu_item_guard _ _ _ _ Hl Hid Hi).
  destruct (live_spec w Hon) as (Hh & Hs & Hr & Hc).
  destruct Hs as (Hm & Hcat & Ha & Hf & Hre).
  assert (Hs : store_unchanged w (live w)) by (by unfold store_unchanged).
  assert (Hsel0 : select_item (live w) i = None)
    by (by rewrite (select_item_unchanged _ _ _ Hs)).
  rewrite (bind_returns _ _ _ _ _ (ensure_connection_run _ Hon)).
  rewrite (bind_returns _ _ _ _ _
             (has_changes_missing _ l _ (connected_online _ Hc) Hsel0)).
  rewrite live_idem. simpl.
  set (w1 := log EvSelect (live w)).
  assert (Hl1 : heap w1 !! l = Some it) by (simpl; by rewrite Hh).
  assert (Hc1 : connection w1 = Some true) by done.
  assert (Hsel1 : select_item w1 i = None) by done.
  rewrite (bind_returns _ _ _ _ _ (get_obj_run _ _ _ Hl1)).
  set (reread := if negb (truthy_bytes (image it)) then _ else _).
  assert (exists w2, reread w1 = (Returns tt, w2) /\
            heap w2 = heap w /\ store_unchanged w w2 /\
            connection w2 = Some true) as (w2 & E2 & Hh2 & Hs2 & Hc2).
  { subst reread. destruct (truthy_bytes (image it)); simpl.
    - exists w1. by split_and!.
    - rewrite (bind_returns _ _ _ _ _ (read_menu_item_run _ i Hc1)), Hsel1.
      eexists. split; [reflexivity|]. by split_and!. }
  rewrite (bind_returns _ _ _ _ _ E2).
  assert (Hl2 : heap w2 !! l = Some it) by (by rewrite Hh2).
  rewrite (bind_returns _ _ _ _ _ (get_obj_run _ _ _ Hl2)).
  destruct Hs2 as (Hm2 & Hcat2 & Ha2 & Hf2 & Hre2).
  unfold mbind, M_bind, execute_update. rewrite Hm2.
  rewrite (row_of_item_categories w w2) by done.
  destruct (menu_items w !! i) as [old|] eqn:Hold.
  - destruct (row_of_item w it) as [new|] eqn:Hnew; simpl.
    + exists (log EvCommit
                (log EvUpdate
                   (with_menu_items (<[i:=new]> (menu_items w)) w2))).
      simpl. split_and!; try done. right; left. exists old, new.
      split_and!; try done. unfold mret, M_ret. rewrite Hf2.
      by destruct (found_rows w), (row_eqb old new).
    + exists (log EvRollback (log EvUpdate w2)). simpl.
      split_and!; try done. right; right. by split_and!.
  - simpl. exists (log EvCommit (log EvUpdate w2)). simpl.
    split_and!; try done. left. by split_and!.
Qed.

End MoreRuns.

(** ** Create, read, update, delete *)

Section Crud.

Implicit Types (w : World) (l : loc) (it cur : MenuItem) (i : Z).

(** X1. A create that returned an id: reading that id back gives an
    item that carries the id, has a category name, and is equal (by
    [equals]) to the item that was created. *)
Theorem create_then_read w l it n w1 :
  heap w !! l = Some it ->
  create_menu_item l w = (Returns n, w1) ->
  exists cur,
    (read_menu_item n w1).1 = Returns (Some cur) /\
    id cur = Some n /\
    equals cur it = true /\
    is_Some (category_name cur).
Proof.
  intros Hl Hrun.
  destruct (create_returned _ _ _ _ _ Hl Hrun)
    as (-> & new & Hnew & Hfree & Hm & Hcat & Hh & Hc).
  destruct (row_of_item_Some _ _ _ Hnew) as (c & _ & [cname Hcn] & _ & Hrow).
  exists (hydrate (auto_increment w) new cname).
  rewrite (read_menu_item_run _ _ Hc). simpl. split_and!.
  - f_equal. apply select_item_hydrate.
    + rewrite Hm. apply lookup_insert_eq.
    + rewrite Hcat. by rewrite Hrow.
  - done.
  - by apply (written_row_equals w).
  - by exists cname.
Qed.

Lemma create_then_read_witness :
  exists cur,
    (read_menu_item 2
       (create_menu_item Cafe.here
          (holding Cafe.here Cafe.tea_new Cafe.shop)).2).1
      = Returns (Some cur) /\
    id cur = Some 2 /\ equals cur Cafe.tea_new = true /\
    is_Some (category_name cur).
Proof.
  apply (create_then_read (holding Cafe.here Cafe.tea_new Cafe.shop)
           Cafe.here Cafe.tea_new 2); reflexivity.
Defined.

(** X2. A create that returned an id used an id no row had, stored
    under it the row of the item's name, description, price, category,
    image and image name, left every other row and the categories as
    they were, and did not touch the caller's object. *)
Theorem create_adds_one_row w l it n w1 :
  heap w !! l = Some it ->
  create_menu_item l w = (Returns n, w1) ->
  menu_items w !! n = None /\
  (exists c,
      category_id it = Some c /\
      menu_items w1 !! n =
        Some (mkRow (name it) (description it) (price it) c
                    (image it) (image_name it))) /\
  (forall j, j <> n -> menu_items w1 !! j = menu_items w !! j) /\
  categories w1 = categories w /\
  heap w1 = heap w.
Proof.
  intros Hl Hrun.
  destruct (create_returned _ _ _ _ _ Hl Hrun)
    as (-> & new & Hnew & Hfree & Hm & Hcat & Hh & Hc).
  destruct (row_of_item_Some _ _ _ Hnew) as (c & Hcid & _ & _ & ->).
  split_and!; try done.
  - exists c. split; [done|]. by rewrite Hm, lookup_insert_eq.
  - intros j Hj. rewrite Hm. by apply lookup_insert_ne.
Qed.

Lemma create_adds_one_row_witness :
  let w := holding Cafe.here Cafe.tea_new Cafe.shop in
  let w1 := (create_menu_item Cafe.here w).2 in
  menu_items w !! 2 = None /\
  (exists c,
      category_id Cafe.tea_new = Some c /\
      menu_items w1 !! 2 =
        Some (mkRow (name Cafe.tea_new) (description Cafe.tea_new)
                    (price Cafe.tea_new) c
                    (image Cafe.tea_new) (image_name Cafe.tea_new))) /\
  (forall j, j <> 2 -> menu_items w1 !! j = menu_items w !! j) /\
  categories w1 = categories w /\
  heap w1 = heap w.
Proof.
  intros w w1.
  apply (create_adds_one_row w Cafe.here Cafe.tea_new 2 w1); reflexivity.
Defined.

Lemma update_menu_item_no_object w l :
  heap w !! l = None -> update_menu_item l w = (Raises AttributeError, w).
Proof.
  intros Hl. unfold update_menu_item, mbind, M_bind, get_obj. by rewrite Hl.
Qed.

Lemma store_unchanged_refl w : store_unchanged w w.
Proof. by unfold store_unchanged. Qed.

(** All the ways an update ends, with what each leaves behind. *)
Lemma update_frame_cases w l :
  let w' := (update_menu_item l w).2 in
  categories w' = categories w /\
  dom (menu_items w') = dom (menu_items w) /\
  (forall e, (update_menu_item l w).1 = Raises e -> store_unchanged w w') /\
  (forall it i, heap w !! l = Some it -> id it = Some i ->
     forall j, j <> i -> menu_items w' !! j = menu_items w !! j).
Proof.
  assert (Hkept : forall o w',
            update_menu_item l w = (o, w') -> store_unchanged w w' ->
            let w' := (update_menu_item l w).2 in
            categories w' = categories w /\
            dom (menu_items w') = dom (menu_items w) /\
            (forall e, (update_menu_item l w).1 = Raises e ->
                       store_unchanged w w') /\
            (forall it i, heap w !! l = Some it -> id it = Some i ->
               forall j, j <> i -> menu_items w' !! j = menu_items w !! j)).
  { intros o w' E Hs. rewrite E. simpl. pose proof Hs as (Hm & Hc & _).
    rewrite Hm. by split_and!. }
  destruct (heap w !! l) as [it|] eqn:Hl.
  2: { eapply Hkept; [by apply update_menu_item_no_object|].
       apply store_unchanged_refl. }
  destruct (truthy_int (id it)) eqn:Hid.
  2: { eapply Hkept; [by apply (update_menu_item_unset _ _ it)|].
       apply store_unchanged_refl. }
  apply truthy_int_iff in Hid as (i & Hid & Hi).
  destruct (online w) eqn:Hon.
  2: { eapply Hkept; [by apply (update_menu_item_offline _ _ it i)|].
       apply store_unchanged_refl. }
  assert (Hwritten : forall w' old new,
            menu_items w !! i = Some old ->
            update_menu_item l w = (Returns true, w') \/
            update_menu_item l w = (Returns false, w') ->
            categories w' = categories w ->
            menu_items w' = <[i:=new]> (menu_items w) ->
            let w' := (update_menu_item l w).2 in
            categories w' = categories w /\
            dom (menu_items w') = dom (menu_items w) /\
            (forall e, (update_menu_item l w).1 = Raises e ->
                       store_unchanged w w') /\
            (forall it0 i0, Some it = Some it0 -> id it0 = Some i0 ->
               forall j, j <> i0 -> menu_items w' !! j = menu_items w !! j)).
  { intros w' old new Hold [E|E] Hcat Hm; rewrite E; simpl;
      (split_and!; [done | | done |]).
    all: try (rewrite Hm; apply dom_insert_lookup_L; by exists old).
    all: intros it0 i0 [= <-] Hid0 j Hj; rewrite Hm;
      apply lookup_insert_ne; congruence. }
  destruct (select_item w i) as [cur|] eqn:Hsel.
  - destruct (select_item_row _ _ _ Hsel) as (old & cname & Hold & _ & _).
    destruct (update_run _ _ _ _ _ Hon Hl Hid Hi Hsel)
      as (w' & _ & _ & Hcat & _ &
          [(_ & E & Hs & _)|[(_ & new & Hnew & E & Hm)|(_ & _ & E & Hs)]]).
    + by eapply Hkept.
    + eapply Hwritten; eauto.
    + by eapply Hkept.
  - destruct (update_run_missing _ _ _ _ Hon Hl Hid Hi Hsel)
      as (w' & _ & _ & Hcat &
          [(_ & E & Hs)|[(old & new & Hold & Hnew & E & Hm)|(_ & _ & E & Hs)]]).
    + by eapply Hkept.
    + eapply (Hwritten w' old new); eauto.
      destruct (found_rows w); [by left|].
      destruct (row_eqb old new); [by right|by left].
    + by eapply Hkept.
Qed.

(** X9. Whatever an update does, the table has the same ids after it as
    before it, the categories are unchanged, and so is every row with
    another id than the item's. *)
Theorem update_touches_one_row w l :
  let w' := (update_menu_item l w).2 in
  dom (menu_items w') = dom (menu_items w) /\
  categories w' = categories w /\
  (forall it i, heap w !! l = Some it -> id it = Some i ->
     forall j, j <> i -> menu_items w' !! j = menu_items w !! j).
Proof.
  destruct (update_frame_cases w l) as (H1 & H2 & _ & H4). by split_and!.
Qed.

Lemma update_touches_one_row_witness :
  let w := holding Cafe.here Cafe.tea_edit Cafe.bar in
  let w' := (update_menu_item Cafe.here w).2 in
  dom (menu_items w') = dom (menu_items w) /\
  menu_items w' !! 2 = menu_items w !! 2.
Proof.
  intros w w'.
  destruct (update_touches_one_row w Cafe.here) as (H1 & _ & H3).
  split; [exact H1|].
  apply (H3 Cafe.tea_edit 1); [reflexivity|reflexivity|lia].
Defined.

(** X3. A create, an update or a delete that raises, whatever it raises,
    leaves both tables as they were. *)
Theorem failed_write_changes_no_table w :
  (forall l e w1,
      create_menu_item l w = (Raises e, w1) -> store_unchanged w w1) /\
  (forall l e w1,
      update_menu_item l w = (Raises e, w1) -> store_unchanged w w1) /\
  (forall item_id e w1,
      delete_menu_item item_id w = (Raises e, w1) -> store_unchanged w w1).
Proof.
  split_and!.
  - intros l e w1 Hrun.
    destruct (heap w !! l) as [it|] eqn:Hl.
    2: { rewrite (create_menu_item_no_object _ _ Hl) in Hrun.
         injection Hrun as _ <-. apply store_unchanged_refl. }
    destruct (is_complete it) eqn:Hc.
    2: { rewrite (create_menu_item_incomplete _ _ _ Hl Hc) in Hrun.
         injection Hrun as _ <-. apply store_unchanged_refl. }
    destruct (online w) eqn:Hon.
    2: { rewrite (create_menu_item_offline _ _ _ Hl Hc Hon) in Hrun.
         injection Hrun as _ <-. apply store_unchanged_refl. }
    destruct (create_run _ _ _ Hl Hc Hon)
      as (w' & _ & _ & _ & [(new & _ & _ & E & _)|(_ & E & Hs)]);
      rewrite E in Hrun; [done|]. by injection Hrun as _ <-.
  - intros l e w1 Hrun.
    destruct (update_frame_cases w l) as (_ & _ & H & _).
    rewrite Hrun in H. by apply (H e).
  - intros item_id e w1 Hrun.
    destruct (truthy_int item_id) eqn:Hid.
    2: { assert (E : delete_menu_item item_id w =
                     (Raises (ValueError "Item ID is required for deletion"),
                      w)) by (by destruct item_id as [[|p|p]|]).
         rewrite E in Hrun. injection Hrun as _ <-.
         apply store_unchanged_refl. }
    apply truthy_int_iff in Hid as (i & -> & Hi).
    destruct (online w) eqn:Hon.
    2: { rewrite (delete_menu_item_offline _ _ Hi Hon) in Hrun.
         injection Hrun as _ <-. apply store_unchanged_refl. }
    destruct (delete_run _ _ Hon Hi) as (w' & E & _).
    by rewrite E in Hrun.
Qed.

Lemma failed_write_changes_no_table_witness :
  let w := holding Cafe.here (priced infinity Cafe.tea_new) Cafe.shop in
  (create_menu_item Cafe.here w).1
    = Raises (Exception "Error creating menu item") /\
  store_unchanged w (create_menu_item Cafe.here w).2.
Proof.
  intros w. split; [reflexivity|].
  apply (proj1 (failed_write_changes_no_table w) Cafe.here
           (Exception "Error creating menu item")).
  reflexivity.
Defined.

(** X5. With the store reachable, a delete of a non-zero id returns
    whether a row had that id; afterwards no row has it and a read of it
    returns [None]; the other rows and the categories are as they were,
    and when no row had the id the table is unchanged. *)
Theorem delete_removes_the_row w i :
  online w = true -> i <> 0 ->
  exists w',
    delete_menu_item (Some i) w =
      (Returns (bool_decide (is_Some (menu_items w !! i))), w') /\
    menu_items w' !! i = None /\
    (read_menu_item i w').1 = Returns None /\
    (forall j, j <> i -> menu_items w' !! j = menu_items w !! j) /\
    categories w' = categories w /\
    (menu_items w !! i = None -> menu_items w' = menu_items w).
Proof.
  intros Hon Hi.
  destruct (delete_run _ _ Hon Hi) as (w' & E & Hm & Hcat & Hh & Ha & Hc).
  exists w'. split_and!; try done.
  - rewrite Hm. apply lookup_delete_eq.
  - rewrite (read_menu_item_run _ _ Hc). simpl. f_equal.
    unfold select_item. rewrite Hm, lookup_delete_eq. done.
  - intros j Hj. rewrite Hm. by apply lookup_delete_ne.
  - intros Hnone. rewrite Hm. by apply delete_id.
Qed.

Lemma delete_removes_the_row_witness :
  exists w',
    delete_menu_item (Some 1) Cafe.shop = (Returns true, w') /\
    menu_items w' !! 1 = None /\
    (read_menu_item 1 w').1 = Returns None.
Proof.
  destruct (delete_removes_the_row Cafe.shop 1 eq_refl ltac:(lia))
    as (w' & E & H1 & H2 & _).
  exists w'. split_and!; [exact E | exact H1 | exact H2].
Defined.

(** X6. Once a delete of an id has returned, a second delete of the same
    id returns [False] and changes nothing. *)
Theorem delete_twice w i w1 b :
  delete_menu_item (Some i) w = (Returns b, w1) ->
  exists w2,
    delete_menu_item (Some i) w1 = (Returns false, w2) /\
    menu_items w2 = menu_items w1 /\ categories w2 = categories w1.
Proof.
  intros Hrun.
  assert (Hi : i <> 0) by (by intros ->).
  assert (Hon : online w = true).
  { destruct (online w) eqn:Hon; [done|].
    by rewrite (delete_menu_item_offline _ _ Hi Hon) in Hrun. }
  destruct (delete_run _ _ Hon Hi) as (w' & E & Hm & Hcat & Hh & Ha & Hc).
  rewrite E in Hrun. injection Hrun as _ <-.
  destruct (delete_run _ _ (connected_online _ Hc) Hi)
    as (w2 & E2 & Hm2 & Hcat2 & _).
  exists w2. split_and!; try done.
  - rewrite E2. rewrite Hm, lookup_delete_eq.
    rewrite bool_decide_eq_false_2; [done|]. by intros [? ?].
  - rewrite Hm2. apply delete_id. rewrite Hm. apply lookup_delete_eq.
Qed.

Lemma delete_twice_witness :
  exists w2,
    delete_menu_item (Some 1) (delete_menu_item (Some 1) Cafe.shop).2
      = (Returns false, w2) /\
    menu_items w2 = menu_items (delete_menu_item (Some 1) Cafe.shop).2 /\
    categories w2 = categories (delete_menu_item (Some 1) Cafe.shop).2.
Proof.
  apply (delete_twice Cafe.shop 1 _ true). reflexivity.
Defined.

(** X7. A create that returned a non-zero id, followed by a delete of
    that id: the delete returns [True] and both tables are as they were
    before the create. *)
Theorem create_then_delete w l it n w1 :
  heap w !! l = Some it ->
  create_menu_item l w = (Returns n, w1) ->
  n <> 0 ->
  exists w2,
    delete_menu_item (Some n) w1 = (Returns true, w2) /\
    menu_items w2 = menu_items w /\ categories w2 = categories w.
Proof.
  intros Hl Hrun Hn.
  destruct (create_returned _ _ _ _ _ Hl Hrun)
    as (-> & new & Hnew & Hfree & Hm & Hcat & Hh & Hc).
  destruct (delete_run _ _ (connected_online _ Hc) Hn)
    as (w2 & E2 & Hm2 & Hcat2 & _).
  exists w2. split_and!.
  - rewrite E2, Hm, lookup_insert_eq.
    rewrite bool_decide_eq_true_2; [done|]. by exists new.
  - rewrite Hm2, Hm. rewrite delete_insert_eq. by apply delete_id.
  - congruence.
Qed.

Lemma create_then_delete_witness :
  let w := holding Cafe.here Cafe.tea_new Cafe.shop in
  exists w2,
    delete_menu_item (Some 2) (create_menu_item Cafe.here w).2
      = (Returns true, w2) /\
    menu_items w2 = menu_items w /\ categories w2 = categories w.
Proof.
  intros w.
  apply (create_then_delete w Cafe.here Cafe.tea_new 2);
    [reflexivity | reflexivity | lia].
Defined.

(** X8. An update for a set id that no row has returns [False], changes
    no table, and leaves the caller's object as it was. *)
Theorem update_unknown_id w l it i :
  online w = true ->
  heap w !! l = Some it ->
  id it = Some i -> i <> 0 ->
  menu_items w !! i = None ->
  exists w',
    update_menu_item l w = (Returns false, w') /\
    store_unchanged w w' /\ heap w' = heap w.
Proof.
  intros Hon Hl Hid Hi Hnone.
  assert (Hsel : select_item w i = None)
    by (unfold select_item; by rewrite Hnone).
  destruct (update_run_missing _ _ _ _ Hon Hl Hid Hi Hsel)
    as (w' & Hh & _ & _ &
        [(_ & E & Hs)|[(old & new & Hold & _)|([old Hold] & _)]]);
    [|congruence|congruence].
  by exists w'.
Qed.

Lemma update_unknown_id_witness :
  let w := holding Cafe.here Shelf.stray Cafe.shop in
  exists w',
    update_menu_item Cafe.here w = (Returns false, w') /\
    store_unchanged w w' /\ heap w' = heap w.
Proof.
  intros w.
  apply (update_unknown_id w Cafe.here Shelf.stray 7); try reflexivity; lia.
Defined.

(** X10. An update of a stored row that returned: the boolean is [True]
    exactly when the row differed from the item (as carried); on [False]
    no table changed; on [True] reading the id back gives the item's name,
    description, price and category, the carried image and image name,
    and an item equal to the carried item. *)
Theorem update_result_tells_change w l it i cur b w1 :
  heap w !! l = Some it ->
  id it = Some i ->
  select_item w i = Some cur ->
  update_menu_item l w = (Returns b, w1) ->
  b = negb (equals cur (carry cur it)) /\
  (b = false -> store_unchanged w w1) /\
  (b = true ->
   exists cur',
     (read_menu_item i w1).1 = Returns (Some cur') /\
     equals cur' (carry cur it) = true /\
     name cur' = name it /\ description cur' = description it /\
     price cur' = price it /\ category_id cur' = category_id it /\
     image cur' = image (carry cur it) /\
     image_name cur' = image_name (carry cur it)).
Proof.
  intros Hl Hid Hsel Hrun.
  assert (Hi : i <> 0).
  { intros ->. rewrite (update_menu_item_unset _ _ _ Hl) in Hrun; [done|].
    by rewrite Hid. }
  assert (Hon : online w = true).
  { destruct (online w) eqn:Hon; [done|].
    by rewrite (update_menu_item_offline _ _ _ _ Hl Hid Hi Hon) in Hrun. }
  destruct (update_run _ _ _ _ _ Hon Hl Hid Hi Hsel)
    as (w' & Hh & Hc & Hcat & _ &
        [(Heq & E & Hs & _)|[(Hne & new & Hnew & E & Hm)|(_ & _ & E & _)]]);
    rewrite E in Hrun; [| |done]; injection Hrun as <- <-.
  - rewrite Heq. by split_and!.
  - rewrite Hne. split_and!; try done. intros _.
    destruct (row_of_item_Some _ _ _ Hnew) as (c & Hcid & [cname Hcn] & _ & Hrow).
    exists (hydrate i new cname).
    rewrite (read_menu_item_run _ _ Hc). simpl.
    assert (Hsel' : select_item w' i = Some (hydrate i new cname)).
    { apply select_item_hydrate.
      - rewrite Hm. apply lookup_insert_eq.
      - rewrite Hcat. by rewrite Hrow. }
    rewrite Hsel'. split_and!; try done.
    + by apply (written_row_equals w).
    + rewrite Hrow. simpl. unfold carry. by destruct (truthy_bytes _).
    + rewrite Hrow. simpl. unfold carry. by destruct (truthy_bytes _).
    + rewrite Hrow. simpl. unfold carry. by destruct (truthy_bytes _).
    + rewrite Hrow. simpl. rewrite <- Hcid. unfold carry.
      by destruct (truthy_bytes _).
    + by rewrite Hrow.
    + by rewrite Hrow.
Qed.

Lemma update_result_tells_change_witness :
  let w := holding Cafe.here Cafe.tea_edit Cafe.shop in
  exists cur',
    (read_menu_item 1 (update_menu_item Cafe.here w).2).1
      = Returns (Some cur') /\
    price cur' = 3%float /\ image cur' = Some Cafe.png.
Proof.
  intros w.
  destruct (update_result_tells_change w Cafe.here Cafe.tea_edit 1 Cafe.tea
              true (update_menu_item Cafe.here w).2
              eq_refl eq_refl eq_refl eq_refl) as (_ & _ & H).
  destruct (H eq_refl) as (cur' & H1 & _ & _ & _ & H2 & _ & H3 & _).
  exists cur'. split_and!; [exact H1 | exact H2 | exact H3].
Defined.

End Crud.

(** ** The connection *)

Section Connection.

Implicit Types (w : World) (l : loc) (it cur : MenuItem) (i : Z).

Lemma has_changes_offline w i l :
  online w = false -> has_changes i l w = refused w.
Proof.
  intros Hoff. unfold has_changes.
  by rewrite (bind_raises _ _ _ _ _ (ensure_connection_offline w Hoff)).
Qed.

Lemma read_menu_item_offline w i :
  online w = false -> read_menu_item i w = refused w.
Proof.
  intros Hoff. unfold read_menu_item.
  by rewrite (bind_raises _ _ _ _ _ (ensure_connection_offline w Hoff)).
Qed.

Lemma search_menu_items_offline w t :
  online w = false -> search_menu_items t w = refused w.
Proof.
  intros Hoff. unfold search_menu_items.
  by rewrite (bind_raises _ _ _ _ _ (ensure_connection_offline w Hoff)).
Qed.

Lemma get_all_menu_items_offline w :
  online w = false -> get_all_menu_items w = refused w.
Proof.
  intros Hoff. unfold get_all_menu_items.
  by rewrite (bind_raises _ _ _ _ _ (ensure_connection_offline w Hoff)).
Qed.

Lemma get_categories_offline w :
  online w = false -> get_categories w = refused w.
Proof.
  intros Hoff. unfold get_categories.
  by rewrite (bind_raises _ _ _ _ _ (ensure_connection_offline w Hoff)).
Qed.

(** X11. With no connected handle and a server that does not answer,
    every method that gets past its own guard raises the connection error
    and leaves the whole world as it was. *)
Theorem offline_nothing_happens w :
  online w = false ->
  (forall i, read_menu_item i w = refused w) /\
  (forall t, search_menu_items t w = refused w) /\
  get_all_menu_items w = refused w /\
  get_categories w = refused w /\
  (forall i l, has_changes i l w = refused w) /\
  (forall i, i <> 0 -> delete_menu_item (Some i) w = refused w) /\
  (forall l it,
      heap w !! l = Some it -> is_complete it = true ->
      create_menu_item l w = refused w) /\
  (forall l it i,
      heap w !! l = Some it -> id it = Some i -> i <> 0 ->
      update_menu_item l w = refused w).
Proof.
  intros Hoff. split_and!.
  - intros i. by apply read_menu_item_offline.
  - intros t. by apply search_menu_items_offline.
  - by apply get_all_menu_items_offline.
  - by apply get_categories_offline.
  - intros i l. by apply has_changes_offline.
  - intros i Hi. by apply delete_menu_item_offline.
  - intros l it Hl Hc. by apply (create_menu_item_offline _ _ it).
  - intros l it i Hl Hid Hi. by apply (update_menu_item_offline _ _ it i).
Qed.

Lemma offline_nothing_happens_witness :
  read_menu_item 1 Shelf.unplugged = refused Shelf.unplugged /\
  get_all_menu_items Shelf.unplugged = refused Shelf.unplugged /\
  delete_menu_item (Some 1) Shelf.unplugged = refused Shelf.unplugged.
Proof.
  destruct (offline_nothing_happens Shelf.unplugged eq_refl)
    as (H1 & _ & H3 & _ & _ & H6 & _).
  split_and!; [exact (H1 1) | exact H3 | exact (H6 1 ltac:(lia))].
Defined.

Lemma live_only_read w : online w = true -> only_read w (live w).
Proof. intros Hon. destruct (live_spec w Hon) as (?&?&?&?). by split_and!. Qed.

Lemma only_read_refl w : only_read w w.
Proof.
  split_and!; [by unfold store_unchanged| apply read_only_refl | done].
Qed.

Lemma only_read_select w : online w = true -> only_read w (log EvSelect (live w)).
Proof.
  intros Hon. destruct (live_spec w Hon) as (Hh & Hs & (evs & Ht & Hf) & _).
  split_and!; try done.
  exists (evs ++ [EvSelect]). split.
  - simpl. by rewrite Ht, app_assoc.
  - apply Forall_app. split; [done|repeat constructor].
Qed.

Lemma get_all_menu_items_run w :
  online w = true ->
  get_all_menu_items w =
    (Returns (merge_sort by_name (Search.joined w)), log EvSelect (live w)).
Proof.
  intros Hon. unfold get_all_menu_items.
  rewrite (bind_returns _ _ _ _ _ (ensure_connection_run w Hon)).
  unfold execute_select_all. do 3 f_equal.
  destruct w as [h c r f mi cat ai tr]. unfold live. by destruct c as [[]|].
Qed.

Lemma get_categories_run w :
  online w = true ->
  get_categories w =
    (Returns (merge_sort category_by_name (map_to_list (categories w))),
     log EvSelect (live w)).
Proof.
  intros Hon. unfold get_categories.
  rewrite (bind_returns _ _ _ _ _ (ensure_connection_run w Hon)).
  unfold execute_select_categories. do 3 f_equal.
  destruct w as [h c r f mi cat ai tr]. unfold live. by destruct c as [[]|].
Qed.

Lemma search_menu_items_world w t :
  online w = true ->
  search_menu_items t w =
    (Returns (Search.select t w), log EvSelect (live w)).
Proof.
  intros Hon. unfold search_menu_items.
  rewrite (bind_returns _ _ _ _ _ (ensure_connection_run w Hon)).
  unfold execute_search. do 2 f_equal.
  destruct w as [h c r f mi cat ai tr]. unfold live. by destruct c as [[]|].
Qed.

Lemma has_changes_no_object w l i cur :
  online w = true -> select_item w i = Some cur -> heap w !! l = None ->
  has_changes i l w = (Raises AttributeError, log EvSelect (live w)).
Proof.
  intros Hon Hsel Hl. unfold has_changes.
  destruct (live_spec w Hon) as (Hh & Hs & Hr & Hc).
  rewrite (bind_returns _ _ _ _ _ (ensure_connection_run w Hon)).
  rewrite (bind_returns _ _ _ _ _ (read_menu_item_run _ i Hc)).
  rewrite (select_item_unchanged _ _ _ Hs), Hsel.
  unfold mbind, M_bind, get_obj. simpl. by rewrite Hh, Hl.
Qed.

(** X4. [read_menu_item], [search_menu_items], [get_all_menu_items] and
    [get_categories] change no table and no object and send no write,
    whether they return or raise; [has_changes] changes no table and sends
    no write (it may write to the caller's object). *)
Theorem queries_write_nothing w :
  (forall i, only_read w (read_menu_item i w).2) /\
  (forall t, only_read w (search_menu_items t w).2) /\
  only_read w (get_all_menu_items w).2 /\
  only_read w (get_categories w).2 /\
  (forall i l,
      store_unchanged w (has_changes i l w).2 /\
      read_only w (has_changes i l w).2).
Proof.
  destruct (online w) eqn:Hon.
  - split_and!.
    + intros i. rewrite (read_menu_item_online _ _ Hon).
      by apply only_read_select.
    + intros t. rewrite (search_menu_items_world _ _ Hon).
      by apply only_read_select.
    + rewrite (get_all_menu_items_run _ Hon). by apply only_read_select.
    + rewrite (get_categories_run _ Hon). by apply only_read_select.
    + intros i l. destruct (only_read_select w Hon) as (Hs & Hr & _).
      destruct (select_item w i) as [cur|] eqn:Hsel.
      * destruct (heap w !! l) as [it|] eqn:Hl.
        -- rewrite (has_changes_run _ _ _ _ _ Hon Hl Hsel).
           destruct (has_changes_world w l it i cur Hon) as (_ & ? & ? & _).
           done.
        -- by rewrite (has_changes_no_object _ _ _ _ Hon Hsel Hl).
      * by rewrite (has_changes_missing _ _ _ Hon Hsel).
  - split_and!.
    + intros i. rewrite (read_menu_item_offline _ _ Hon). apply only_read_refl.
    + intros t. rewrite (search_menu_items_offline _ _ Hon).
      apply only_read_refl.
    + rewrite (get_all_menu_items_offline _ Hon). apply only_read_refl.
    + rewrite (get_categories_offline _ Hon). apply only_read_refl.
    + intros i l. rewrite (has_changes_offline _ _ _ Hon).
      destruct (only_read_refl w) as (? & ? & _). done.
Qed.

(** X12. [close] always returns, changes no table, no object and no
    trace, leaves a handle that is not connected, and is idempotent; the
    next read reconnects when the server answers, and then returns what a
    read would have returned, and raises the connection error when it
    does not. *)
Theorem close_then_reconnect w i :
  let w' := (close w).2 in
  (close w).1 = Returns tt /\
  store_unchanged w w' /\ heap w' = heap w /\ trace w' = trace w /\
  connection w' <> Some true /\
  close w' = (Returns tt, w') /\
  (reachable w = true ->
   read_menu_item i w' =
     (Returns (select_item w i),
      log EvSelect (log EvConnect (with_connection (Some true) w')))) /\
  (reachable w = false -> read_menu_item i w' = refused w').
Proof.
  destruct w as [h c r f mi cat ai tr]. unfold close. simpl.
  destruct c as [[]|]; simpl; split_and!; try done;
    try (intros ->; reflexivity).
Qed.

Lemma close_then_reconnect_witness :
  (read_menu_item 1 (close Cafe.shop).2).1 = Returns (Some Cafe.tea) /\
  connection (read_menu_item 1 (close Cafe.shop).2).2 = Some true.
Proof.
  destruct (close_then_reconnect Cafe.shop 1) as (_ & _ & _ & _ & _ & _ & H & _).
  rewrite (H eq_refl). split; reflexivity.
Defined.

End Connection.

(** ** Listings *)

Section Listing.

Implicit Types (w : World) (l : loc) (it cur : MenuItem) (i : Z).

#[local] Instance by_name_total : Total by_name.
Proof. intros a b. apply collate_le_total. Qed.

#[local] Instance by_name_trans : Transitive by_name.
Proof. intros a b c. apply collate_le_trans. Qed.

#[local] Instance category_by_name_total : Total category_by_name.
Proof. intros a b. apply collate_le_total. Qed.

#[local] Instance category_by_name_trans : Transitive category_by_name.
Proof. intros a b c. apply collate_le_trans. Qed.

Lemma joined_NoDup w : NoDup (Search.joined w).
Proof. apply (NoDup_fmap_1 id). apply joined_ids_NoDup. Qed.

(** X13. With the store reachable, [get_all_menu_items] returns, ordered
    by name and with no id twice, exactly the items [read_menu_item] can
    load. *)
Theorem get_all_lists_what_read_loads w :
  online w = true ->
  exists items,
    (get_all_menu_items w).1 = Returns items /\
    StronglySorted by_name items /\
    NoDup (id <$> items) /\
    (forall it,
        it ∈ items <->
        exists i, (read_menu_item i w).1 = Returns (Some it)).
Proof.
  intros Hon. exists (merge_sort by_name (Search.joined w)).
  rewrite (get_all_menu_items_run _ Hon). split_and!.
  - done.
  - apply (StronglySorted_merge_sort _).
  - rewrite merge_sort_Permutation. apply joined_ids_NoDup.
  - intros it. rewrite merge_sort_Permutation, joined_elem_of.
    split; intros [i Hi]; exists i.
    + rewrite (read_menu_item_online _ _ Hon). simpl. by rewrite Hi.
    + rewrite (read_menu_item_online _ _ Hon) in Hi. simpl in Hi. congruence.
Qed.

Lemma get_all_lists_what_read_loads_witness :
  exists items,
    (get_all_menu_items Cafe.bar).1 = Returns items /\
    StronglySorted by_name items /\
    NoDup (id <$> items) /\
    (forall it,
        it ∈ items <->
        exists i, (read_menu_item i Cafe.bar).1 = Returns (Some it)).
Proof. apply (get_all_lists_what_read_loads Cafe.bar). reflexivity. Defined.

Lemma like_everything s : Sql.like (Search.search_pattern "") s = true.
Proof.
  unfold Search.search_pattern. simpl String.append.
  rewrite like_percent_cons, like_percent_only. done.
Qed.

Lemma matches_empty_term it : Search.matches "" it = true.
Proof.
  unfold Search.matches, Search.name_like. rewrite like_everything.
  by rewrite orb_true_r.
Qed.

Lemma rank_empty_term it : Search.rank "" it = 1.
Proof. unfold Search.rank, Search.name_like. by rewrite like_everything. Qed.

Lemma StronglySorted_weaken {A} (R1 R2 : relation A) (l : list A) :
  (forall a b, R1 a b -> R2 a b) ->
  StronglySorted R1 l -> StronglySorted R2 l.
Proof.
  intros HR. induction 1 as [|a l Hl IH Hall]; constructor; [done|].
  eapply Forall_impl; [exact Hall|]. intros b. apply HR.
Qed.

(** X14. With the store reachable, every item a search returns is an
    item of [get_all_menu_items]; the search for the empty string returns
    all of them, ordered by name. *)
Theorem search_within_all search_term w :
  online w = true ->
  exists found items,
    (search_menu_items search_term w).1 = Returns found /\
    (get_all_menu_items w).1 = Returns items /\
    found ⊆ items /\
    (search_term = EmptyString ->
     found ≡ₚ items /\ StronglySorted by_name found).
Proof.
  intros Hon.
  exists (Search.select search_term w), (merge_sort by_name (Search.joined w)).
  rewrite (search_menu_items_world _ _ Hon), (get_all_menu_items_run _ Hon).
  split_and!; try done.
  - intros it Hit. rewrite merge_sort_Permutation.
    by apply select_elem_of_joined in Hit as [Hit _].
  - intros ->. split.
    + apply NoDup_Permutation.
      * unfold Search.select. rewrite merge_sort_Permutation.
        apply NoDup_remove_dups.
      * rewrite merge_sort_Permutation. apply joined_NoDup.
      * intros it. rewrite select_elem_of_joined, merge_sort_Permutation.
        pose proof (matches_empty_term it). tauto.
    + eapply StronglySorted_weaken; [|apply select_sorted].
      intros a b [Hlt|[_ Hle]]; [|done].
      rewrite !rank_empty_term in Hlt. lia.
Qed.

Lemma search_within_all_witness :
  exists found items,
    (search_menu_items "" Cafe.bar).1 = Returns found /\
    (get_all_menu_items Cafe.bar).1 = Returns items /\
    found ⊆ items /\
    (EmptyString = EmptyString ->
     found ≡ₚ items /\ StronglySorted by_name found).
Proof. apply (search_within_all "" Cafe.bar). reflexivity. Defined.

(** X15. With the store reachable, [get_categories] returns the
    categories, each id once, ordered by name; the category id and category
    name of every item of [get_all_menu_items] is one of them. *)
Theorem categories_cover_the_items w :
  online w = true ->
  exists cats items,
    (get_categories w).1 = Returns cats /\
    (get_all_menu_items w).1 = Returns items /\
    StronglySorted category_by_name cats /\
    NoDup cats.*1 /\
    (forall c n, (c, n) ∈ cats <-> categories w !! c = Some n) /\
    (forall it,
        it ∈ items ->
        exists c n,
          category_id it = Some c /\ category_name it = Some n /\
          (c, n) ∈ cats).
Proof.
  intros Hon.
  exists (merge_sort category_by_name (map_to_list (categories w))),
    (merge_sort by_name (Search.joined w)).
  rewrite (get_categories_run _ Hon), (get_all_menu_items_run _ Hon).
  split_and!; try done.
  - apply (StronglySorted_merge_sort _).
  - rewrite merge_sort_Permutation. apply NoDup_fst_map_to_list.
  - intros c n. rewrite merge_sort_Permutation. apply elem_of_map_to_list.
  - intros it. rewrite !merge_sort_Permutation, joined_elem_of.
    intros [i Hsel].
    destruct (select_item_row _ _ _ Hsel) as (old & cname & _ & Hc & ->).
    exists (row_category_id old), cname. split_and!; try done.
    rewrite merge_sort_Permutation. by apply elem_of_map_to_list.
Qed.

Lemma categories_cover_the_items_witness :
  exists cats items,
    (get_categories Cafe.bar).1 = Returns cats /\
    (get_all_menu_items Cafe.bar).1 = Returns items /\
    StronglySorted category_by_name cats /\
    NoDup cats.*1 /\
    (forall c n, (c, n) ∈ cats <-> categories Cafe.bar !! c = Some n) /\
    (forall it,
        it ∈ items ->
        exists c n,
          category_id it = Some c /\ category_name it = Some n /\
          (c, n) ∈ cats).
Proof. apply (categories_cover_the_items Cafe.bar). reflexivity. Defined.

End Listing.

(** ** Searching an id *)

Section Digits.

Lemma digits_step c acc b s :
  Py.is_digit c = true ->
  Py.digits acc b (c :: s) =
    Py.digits (10 * acc + (Z.of_N (Sql.code c) - 48)) true s.
Proof. intros H. simpl. by rewrite H. Qed.

Ltac next_digit d :=
  unfold numeral_chars; simpl NilEmpty.string_of_uint;
  simpl String.list_ascii_of_string; fold (numeral_chars d);
  rewrite digits_step by reflexivity.

Lemma digits_acc d acc :
  Py.digits (Z.pos acc) true (numeral_chars d)
    = Some (Z.pos (Pos.of_uint_acc d acc)).
Proof.
  revert acc.
  induction d as [|d IH|d IH|d IH|d IH|d IH|d IH|d IH|d IH|d IH|d IH];
    intros acc; [done|..];
    next_digit d; simpl Pos.of_uint_acc; rewrite <- IH; f_equal;
    match goal with
    | |- context [Z.of_N (Sql.code ?c)] =>
        let v := eval vm_compute in (Z.of_N (Sql.code c)) in
        change (Z.of_N (Sql.code c)) with v
    end; lia.
Qed.

Lemma digits_zero d b :
  d <> Decimal.Nil \/ b = true ->
  Py.digits 0 b (numeral_chars d) = Some (Z.of_N (Pos.of_uint d)).
Proof.
  revert b.
  induction d as [|d IH|d IH|d IH|d IH|d IH|d IH|d IH|d IH|d IH|d IH];
    intros b Hb.
  { destruct Hb as [?| ->]; done. }
  { next_digit d. simpl Pos.of_uint.
    rewrite <- (IH true) by (by right). done. }
  all: next_digit d; simpl Pos.of_uint; simpl Z.of_N;
    by rewrite <- digits_acc.
Qed.

Lemma numeral_chars_not_space d :
  Forall (fun c => Py.is_space c = false) (numeral_chars d).
Proof. induction d; constructor; done. Qed.

Lemma lstrip_not_space (s : list ascii) :
  Forall (fun c => Py.is_space c = false) s -> Py.lstrip s = s.
Proof. destruct 1 as [|c s Hc _]; [done|]. simpl. by rewrite Hc. Qed.

Lemma strip_not_space (s : list ascii) :
  Forall (fun c => Py.is_space c = false) s -> Py.strip s = s.
Proof.
  intros H. unfold Py.strip. rewrite (lstrip_not_space s H).
  rewrite lstrip_not_space by (by apply Forall_reverse).
  apply reverse_involutive.
Qed.

(** [int] reads back the numeral of a natural number. *)
Lemma int_numeral d :
  d <> Decimal.Nil ->
  Py.int (NilEmpty.string_of_uint d) = Some (Z.of_N (N.of_uint d)).
Proof.
  intros Hd. unfold Py.int. fold (numeral_chars d).
  rewrite (strip_not_space _ (numeral_chars_not_space d)).
  change (N.of_uint d) with (Pos.of_uint d).
  rewrite <- (digits_zero d false) by (by left).
  by destruct d.
Qed.

Lemma int_str_nat n : Py.int (str_nat n) = Some (Z.of_N n).
Proof.
  unfold str_nat, NilZero.string_of_uint.
  rewrite <- (DecimalN.Unsigned.of_to n) at 2.
  destruct (N.to_uint n) eqn:E; try (apply int_numeral; done).
  reflexivity.
Qed.

End Digits.

Section SearchById.

Implicit Types (w : World) (it : MenuItem).

(** X16. With the store reachable, searching the decimal numeral of an
    id that [read_menu_item] can load returns that item, whatever its
    name. *)
Theorem search_by_id_finds_the_row w n it :
  online w = true ->
  (read_menu_item (Z.of_N n) w).1 = Returns (Some it) ->
  exists found,
    (search_menu_items (str_nat n) w).1 = Returns found /\ it ∈ found.
Proof.
  intros Hon Hread.
  rewrite (read_menu_item_online _ _ Hon) in Hread. simpl in Hread.
  injection Hread as Hsel.
  exists (Search.select (str_nat n) w).
  rewrite (search_menu_items_world _ _ Hon). split; [done|].
  apply select_elem_of. split; [by exists (Z.of_N n)|].
  destruct (select_item_row _ _ _ Hsel) as (old & cname & _ & _ & ->).
  unfold Search.matches, Search.id_condition. rewrite int_str_nat.
  simpl. by rewrite bool_decide_eq_true_2.
Qed.

Lemma search_by_id_finds_the_row_witness :
  exists found,
    (search_menu_items (str_nat 3) Cafe.bar).1 = Returns found /\
    Cafe.mocha ∈ found.
Proof.
  apply (search_by_id_finds_the_row Cafe.bar 3 Cafe.mocha); reflexivity.
Defined.

End SearchById.

Section Equality.

Implicit Types a b it : MenuItem.

Lemma SFabs_binary_round s m e :
  SFabs (binary_round prec emax s m e)
    = SFabs (binary_round prec emax (negb s) m e).
Proof.
  unfold binary_round, binary_round_aux.
  destruct (shl_align m e _) as [mz ez].
  destruct (shr_fexp prec emax (Z.pos mz) ez loc_Exact) as [mrs' e'].
  destruct (shr_fexp prec emax _ e' loc_Exact) as [mrs'' e''].
  destruct (shr_m mrs''); try done.
  by destruct (e'' <=? emax - prec)%Z.
Qed.

Lemma SFabs_binary_normalize_opp m e :
  SFabs (binary_normalize prec emax (- m) e false)
    = SFabs (binary_normalize prec emax m e false).
Proof.
  destruct m as [|p|p]; simpl; [done| |].
  - apply (SFabs_binary_round true).
  - apply (SFabs_binary_round false).
Qed.

Lemma SFabs_sub_sym x y :
  SFabs (SF64sub x y) = SFabs (SF64sub y x).
Proof.
  unfold SF64sub, SFsub.
  destruct x as [sx|sx| |sx mx ex], y as [sy|sy| |sy my ey];
    try (destruct sx, sy; reflexivity); try (destruct sx; reflexivity);
    try (destruct sy; reflexivity); try reflexivity.
  rewrite (Z.min_comm ey ex).
  rewrite <- SFabs_binary_normalize_opp. f_equal. f_equal. lia.
Qed.

Lemma close_sym p q : Price.close p q = Price.close q p.
Proof.
  unfold Price.close, Price.abs_diff.
  rewrite !FloatAxioms.ltb_spec, !FloatAxioms.abs_spec, !FloatAxioms.sub_spec.
  by rewrite SFabs_sub_sym.
Qed.

(** X17. [equals] is symmetric. *)
Theorem equals_sym a b : equals a b = equals b a.
Proof.
  rewrite !equals_unfold, (close_sym (price a) (price b)).
  rewrite (bool_decide_ext (name a = name b) (name b = name a)) by done.
  rewrite (bool_decide_ext (description a = description b)
             (description b = description a)) by done.
  rewrite (bool_decide_ext (category_id a = category_id b)
             (category_id b = category_id a)) by done.
  f_equal.
  destruct (image a) as [x|], (image b) as [y|]; try done.
  rewrite (bool_decide_ext (x = y) (y = x)) by done.
  by rewrite (bool_decide_ext (image_name a = image_name b)
                (image_name b = image_name a)).
Qed.

Lemma not_finite_spec (p : float) :
  Price.finite p = false ->
  Prim2SF p = S754_nan \/ exists s, Prim2SF p = S754_infinity s.
Proof.
  unfold Price.finite, is_nan, is_infinity.
  rewrite !FloatAxioms.eqb_spec, FloatAxioms.abs_spec.
  destruct (Prim2SF p) as [s|s| |s m e]; eauto; try done.
  change (Prim2SF infinity) with (S754_infinity false).
  unfold SFeqb, SFcompare, SFabs.
  rewrite Z.compare_refl, Pos.compare_cont_refl. by destruct s.
Qed.

Lemma close_self p : Price.close p p = Price.finite p.
Proof.
  destruct (Price.finite p) eqn:Hf; [by apply close_refl|].
  unfold Price.close, Price.abs_diff.
  rewrite FloatAxioms.ltb_spec, FloatAxioms.abs_spec, FloatAxioms.sub_spec.
  destruct (not_finite_spec p Hf) as [-> | [s ->]]; [done|].
  by destruct s.
Qed.

(** X18. An item equals itself exactly when its price is neither a NaN
    nor an infinity. *)
Theorem equals_self a : equals a a = Price.finite (price a).
Proof. rewrite equals_same_but_price by done. apply close_self. Qed.

(** X19. [equals] is not transitive: three items that differ only by
    price, each within the tolerance of the next, the first not within
    the tolerance of the last. *)
Theorem equals_not_transitive :
  exists a b c,
    equals a b = true /\ equals b c = true /\ equals a c = false.
Proof.
  exists (priced 2.5%float Cafe.tea), (priced 2.509%float Cafe.tea),
    (priced 2.518%float Cafe.tea).
  by split_and!.
Qed.

End Equality.
